(** * code-polish-pro: the configuration generation engine of [bin/index.js]

    A shallow embedding of the current version of [bin/index.js]: the
    dependency catalog ([dependencyManager]), the merge engine and the
    per-type rule functions ([eslintConfigGenerator]), the ignore lists
    ([fileSystem.createEslintIgnore]) and [setupProject] from the point where
    the answers are known.

    JavaScript values are modelled as finite trees, the values a parsed
    configuration file and the literals of the program consist of.  Numbers
    are integers.  Objects are association lists in insertion order
    (assignment to an existing key keeps its place, a new key goes last); the
    engine never deletes a property.  Not modelled: the re-ordering
    JavaScript applies to integer-like keys, properties inherited from
    [Object.prototype], and the identity of objects (see [set_add]).  The
    properties that depend on one of these are stated for documents that
    stay clear of it: keys that are [own_names] or [ordinary_keys], sequences
    of scalars ([is_document]).
    A [TypeError] raised by the code is the [Throw] outcome. *)

From Stdlib Require Import String Ascii List ZArith Bool Lia Permutation DecimalString.
Import ListNotations.
Open Scope string_scope.
Open Scope list_scope.

(** ** Outcomes: a value, or a thrown [TypeError] *)

Inductive result (A : Type) : Type :=
| Ok (a : A)
| Throw (msg : string).

Arguments Ok {A} a.
Arguments Throw {A} msg.

Definition bind {A B : Type} (r : result A) (k : A -> result B) : result B :=
  match r with
  | Ok a => k a
  | Throw m => Throw m
  end.

Notation "x <- e ;; k" := (bind e (fun x => k))
  (at level 61, e at next level, right associativity).

(** ** JavaScript values *)

Module JS.

Unset Elimination Schemes.
Inductive value : Type :=
| VNull
| VBool (b : bool)
| VNum (n : Z)
| VStr (s : string)
| VArr (items : list value)
| VObj (props : list (string * value)).
Set Elimination Schemes.

(** An object's own enumerable properties, in order. *)
Definition props := list (string * value).

(** Induction over the tree: array items and property values are smaller. *)
Definition value_ind (P : value -> Prop)
    (HNull : P VNull)
    (HBool : forall b, P (VBool b))
    (HNum : forall n, P (VNum n))
    (HStr : forall s, P (VStr s))
    (HArr : forall items, Forall P items -> P (VArr items))
    (HObj : forall ps : props, Forall (fun kv => P (snd kv)) ps -> P (VObj ps))
  : forall v, P v :=
  fix go (v : value) : P v :=
    match v with
    | VNull => HNull
    | VBool b => HBool b
    | VNum n => HNum n
    | VStr s => HStr s
    | VArr items =>
        HArr items
          ((fix all (l : list value) : Forall P l :=
              match l with
              | [] => Forall_nil P
              | x :: r => Forall_cons x (go x) (all r)
              end) items)
    | VObj ps =>
        HObj ps
          ((fix all (l : props) : Forall (fun kv => P (snd kv)) l :=
              match l with
              | [] => Forall_nil _
              | kv :: r => Forall_cons kv (go (snd kv)) (all r)
              end) ps)
    end.

(** Structural comparison of two trees. *)
Fixpoint value_eqb (a b : value) {struct a} : bool :=
  match a, b with
  | VNull, VNull => true
  | VBool x, VBool y => Bool.eqb x y
  | VNum x, VNum y => Z.eqb x y
  | VStr x, VStr y => String.eqb x y
  | VArr xs, VArr ys =>
      (fix go (xs ys : list value) {struct xs} : bool :=
         match xs, ys with
         | [], [] => true
         | x :: xs', y :: ys' => value_eqb x y && go xs' ys'
         | _, _ => false
         end) xs ys
  | VObj ps, VObj qs =>
      (fix go (ps qs : props) {struct ps} : bool :=
         match ps, qs with
         | [], [] => true
         | (k, x) :: ps', (k', y) :: qs' =>
             String.eqb k k' && value_eqb x y && go ps' qs'
         | _, _ => false
         end) ps qs
  | _, _ => false
  end.

(** [typeof v !== 'object'], or [v === null]: the values the merge engine
    treats as scalars. *)
Definition is_scalar (v : value) : bool :=
  match v with
  | VArr _ | VObj _ => false
  | _ => true
  end.

(** [Array.isArray(v)]. *)
Definition isArray (v : value) : bool :=
  match v with VArr _ => true | _ => false end.

(** JavaScript truthiness; [undefined] is the absent value [None] below. *)
Definition truthy (v : value) : bool :=
  match v with
  | VNull => false
  | VBool b => b
  | VNum n => negb (Z.eqb n 0)
  | VStr s => negb (String.eqb s "")
  | VArr _ | VObj _ => true
  end.

(** [x || d], where [x] is a property read that may be [undefined]. *)
Definition or_default (x : option value) (d : value) : value :=
  match x with
  | Some v => if truthy v then v else d
  | None => d
  end.

(** Property read [o[key]] on an object's own properties. *)
Fixpoint get (key : string) (o : props) : option value :=
  match o with
  | [] => None
  | (k, v) :: rest => if String.eqb k key then Some v else get key rest
  end.

(** Property write [o[key] = v]. *)
Fixpoint set (key : string) (v : value) (o : props) : props :=
  match o with
  | [] => [(key, v)]
  | (k, w) :: rest =>
      if String.eqb k key then (k, v) :: rest else (k, w) :: set key v rest
  end.

(** [{ ...target, ...src }] once [target] is an object: the properties of
    [src] are written in order. *)
Definition assign (target src : props) : props :=
  fold_left (fun acc kv => set (fst kv) (snd kv) acc) src target.

Definition keys (o : props) : list string := map fst o.

(** The characters of a string, each as a one-character string. *)
Fixpoint chars (s : string) : list value :=
  match s with
  | EmptyString => []
  | String c rest => VStr (String c EmptyString) :: chars rest
  end.

(** Decimal rendering of an array index, as a property key. *)
Definition index_key (n : nat) : string :=
  NilEmpty.string_of_uint (Nat.to_uint n).

Fixpoint indexed_from (n : nat) (l : list value) : props :=
  match l with
  | [] => []
  | x :: r => (index_key n, x) :: indexed_from (S n) r
  end.

(** Array spread [[...v]]: arrays and strings are iterable, every other
    value the engine can meet here throws. *)
Definition spread_array (v : value) : result (list value) :=
  match v with
  | VArr items => Ok items
  | VStr s => Ok (chars s)
  | _ => Throw "TypeError: value is not iterable"
  end.

(** Object spread [{...v}]: the own enumerable properties of [v]; arrays and
    strings contribute their indices, other primitives nothing. *)
Definition spread_object (v : value) : props :=
  match v with
  | VObj ps => ps
  | VArr items => indexed_from 0 items
  | VStr s => indexed_from 0 (chars s)
  | _ => []
  end.

(** [{...x}] where [x] is a property read that may be [undefined]. *)
Definition spread_object_opt (x : option value) : props :=
  match x with
  | Some v => spread_object v
  | None => []
  end.

(** [Set.prototype.add]: a value already present is not added again.
    Membership is SameValueZero: equality of values on scalars, identity on
    arrays and objects.  The sequences of a configuration document hold
    scalars; on arrays and objects the model compares contents, which is
    identity whenever equal containers are one object. *)
Definition set_add (seen : list value) (x : value) : list value :=
  if existsb (value_eqb x) seen then seen else seen ++ [x].

(** [[...new Set(l)]]: first occurrences, in order. *)
Definition set_dedup (l : list value) : list value :=
  fold_left set_add l [].

End JS.
Import JS.

(** ** The merge engine and the rule functions: [eslintConfigGenerator] *)

Module eslintConfigGenerator.

(** The body of the [for] loop of [mergeConfigs]: each entry of the incoming
    object is combined with [merged[key]] by [step] and written back. *)
Definition merge_loop (step : option value -> value -> result value)
  : props -> props -> result props :=
  fix loop (entries merged : props) {struct entries} : result props :=
    match entries with
    | [] => Ok merged
    | kv :: rest =>
        nv <- step (get (fst kv) merged) (snd kv) ;;
        loop rest (set (fst kv) nv merged)
    end.

(** The new [merged[key]] for an incoming value [v]; [current] is
    [merged[key]] before the assignment.  The three branches are those of
    the [if / else if / else] chain, which looks at the incoming value only. *)
Fixpoint mergeField (current : option value) (v : value) {struct v}
  : result value :=
  match v with
  | VArr items =>
      mine <- spread_array (or_default current (VArr [])) ;;
      Ok (VArr (set_dedup (mine ++ items)))
  | VObj entries =>
      sub <- merge_loop (fun c v => mergeField c v) entries
               (spread_object (or_default current (VObj []))) ;;
      Ok (VObj sub)
  | _ => Ok v
  end.

(** [mergeConfigs(baseConfig, existingConfig)]: [merged = { ...baseConfig }],
    then the loop over [Object.entries(existingConfig)]. *)
Definition mergeConfigs (baseConfig : value) (existingConfig : props)
  : result props :=
  merge_loop mergeField existingConfig (spread_object baseConfig).

(** [config[key] = [...(config[key] || []), ...extra]]. *)
Definition append_to (key : string) (extra : list value) (config : props)
  : result props :=
  mine <- spread_array (or_default (get key config) (VArr [])) ;;
  Ok (set key (VArr (mine ++ extra)) config).

(** [config[key] = { ...config[key], ...extra }]. *)
Definition extend_object (key : string) (extra : props) (config : props)
  : props :=
  set key (VObj (assign (spread_object_opt (get key config)) extra)) config.

(** [config[key].push(x)]. *)
Definition push (key : string) (x : value) (config : props) : result props :=
  match get key config with
  | Some (VArr items) => Ok (set key (VArr (items ++ [x])) config)
  | _ => Throw "TypeError: push is not a function"
  end.

(** [config[key][member] = v] in a sloppy-mode script: it throws on
    [undefined] and [null], is ignored on a primitive, and on an array adds a
    named property that is no part of the array's items. *)
Definition set_member (key member : string) (v : value) (config : props)
  : result props :=
  match get key config with
  | None | Some VNull => Throw "TypeError: Cannot set properties"
  | Some (VObj ps) => Ok (set key (VObj (set member v ps)) config)
  | Some _ => Ok config
  end.

Definition strs (l : list string) : list value := map VStr l.

Definition always (rule : string) : string * value :=
  (rule, VArr [VStr "error"; VStr "always"]).

Definition configureReact (config : props) (useTypeScript : bool)
  : result props :=
  config <- append_to "extends"
    (strs ["plugin:react/recommended"; "plugin:react/jsx-runtime";
           "plugin:react-hooks/recommended"; "plugin:jsx-a11y/recommended";
           "plugin:import/errors"; "plugin:import/warnings"]) config ;;
  config <- append_to "plugins"
    (strs ["react"; "react-hooks"; "jsx-a11y"; "import"]) config ;;
  let config := extend_object "settings"
    [("react", VObj [("version", VStr "detect")]);
     ("import/resolver",
      VObj [("node",
             VObj [("extensions", VArr (strs [".js"; ".jsx"; ".ts"; ".tsx"]))])])]
    config in
  let config := extend_object "rules"
    [("react/prop-types", VStr (if useTypeScript then "off" else "error"));
     ("react/jsx-uses-react", VStr "error");
     ("react/jsx-uses-vars", VStr "error");
     ("react-hooks/rules-of-hooks", VStr "error");
     ("react-hooks/exhaustive-deps", VStr "warn");
     ("import/no-unresolved", VStr "error");
     ("import/named", VStr "error");
     ("import/default", VStr "error");
     ("import/namespace", VStr "error")] config in
  if useTypeScript
  then set_member "parserOptions" "ecmaFeatures" (VObj [("jsx", VBool true)]) config
  else Ok config.

Definition configureNextjs (config : props) : result props :=
  append_to "extends" (strs ["next/core-web-vitals"]) config.

Definition configureNodejs (config : props) : result props :=
  config <- append_to "extends" (strs ["plugin:node/recommended"]) config ;;
  config <- append_to "plugins" (strs ["node"]) config ;;
  Ok (extend_object "rules"
    [("node/exports-style", VArr [VStr "error"; VStr "module.exports"]);
     always "node/file-extension-in-import";
     always "node/prefer-global/buffer";
     always "node/prefer-global/console";
     always "node/prefer-global/process";
     always "node/prefer-global/url-search-params";
     always "node/prefer-global/url";
     ("node/prefer-promises/dns", VStr "error");
     ("node/prefer-promises/fs", VStr "error")] config).

(** [configureSvelte(config, useTypeScript)]; [None] is a call that leaves
    the second argument out, so that the parameter is [undefined]. *)
Definition configureSvelte (config : props) (useTypeScript : option bool)
  : result props :=
  let ts := match useTypeScript with Some b => b | None => false end in
  let config := set "extends"
    (VArr (strs ["eslint:recommended"; "plugin:svelte/recommended"])) config in
  let config := set "parser" (VStr "svelte-eslint-parser") config in
  let config := set "plugins" (VArr (strs ["svelte"])) config in
  let config := set "overrides"
    (VArr [VObj [("files", VArr (strs ["*.svelte"]));
                 ("parser", VStr "svelte-eslint-parser");
                 ("parserOptions",
                  VObj [("parser",
                         VStr (if ts then "@typescript-eslint/parser"
                               else "espree"))])]]) config in
  config <-
    (if ts then
       config <- push "extends" (VStr "plugin:@typescript-eslint/recommended") config ;;
       config <- push "plugins" (VStr "@typescript-eslint") config ;;
       Ok (extend_object "parserOptions"
             [("project", VStr "./tsconfig.json");
              ("extraFileExtensions", VArr (strs [".svelte"]))] config)
     else Ok config) ;;
  Ok (extend_object "rules"
    [("svelte/no-unused-vars", VStr "error");
     ("no-unused-vars", VStr "off");
     ("@typescript-eslint/no-unused-vars",
      if ts
      then VArr [VStr "error";
                 VObj [("varsIgnorePattern", VStr "^_");
                       ("argsIgnorePattern", VStr "^_")]]
      else VStr "off")] config).

Definition configureVue (config : props) : result props :=
  config <- append_to "extends" (strs ["plugin:vue/vue3-recommended"]) config ;;
  config <- append_to "plugins" (strs ["vue"]) config ;;
  Ok (set "parser" (VStr "vue-eslint-parser") config).

Definition configureAngular (config : props) : result props :=
  config <- append_to "extends"
    (strs ["plugin:@angular-eslint/recommended";
           "plugin:@angular-eslint/template/process-inline-templates"]) config ;;
  append_to "plugins" (strs ["@angular-eslint"]) config.

Definition configureTypeScript (config : props) : result props :=
  let config := set "parser" (VStr "@typescript-eslint/parser") config in
  config <- append_to "plugins" (strs ["@typescript-eslint"]) config ;;
  config <- append_to "extends" (strs ["plugin:@typescript-eslint/recommended"]) config ;;
  Ok (extend_object "rules"
    [("@typescript-eslint/explicit-function-return-type", VStr "off");
     ("@typescript-eslint/explicit-module-boundary-types", VStr "off");
     ("@typescript-eslint/no-explicit-any", VStr "warn")] config).

Definition configurePrettier (config : props) : result props :=
  config <- append_to "extends" (strs ["plugin:prettier/recommended"]) config ;;
  Ok (extend_object "rules" [("prettier/prettier", VStr "error")] config).

(** The [rules] literal of the initial [eslintConfig]. *)
Definition baseRules (useStrict : bool) : props :=
  [("no-console", VStr (if useStrict then "error" else "warn"));
   ("no-debugger", VStr "error");
   ("no-unused-vars", VStr "error")].

(** [packageJson.type === 'module' ? 'module' : (react, nextjs or svelte) ?
    'module' : 'script']. *)
Definition sourceType (projectType : string) (packageJson : props) : string :=
  match get "type" packageJson with
  | Some (VStr "module") => "module"
  | _ =>
      if String.eqb projectType "react" || String.eqb projectType "nextjs"
         || String.eqb projectType "svelte"
      then "module" else "script"
  end.

(** The object literal [generateConfig] starts from. *)
Definition baseConfig (projectType : string) (useStrict : bool)
    (packageJson : props) : props :=
  [("root", VBool true);
   ("env", VObj [("browser", VBool true); ("es2022", VBool true);
                 ("node", VBool true)]);
   ("parserOptions",
    VObj [("ecmaVersion", VStr "latest");
          ("sourceType", VStr (sourceType projectType packageJson))]);
   ("rules", VObj (baseRules useStrict))].

(** The [switch (projectType)]; a type outside the six cases runs no rule
    function. *)
Definition configureProject (projectType : string) (useTypeScript : bool)
    (config : props) : result props :=
  if String.eqb projectType "react" then configureReact config useTypeScript
  else if String.eqb projectType "nextjs" then configureNextjs config
  else if String.eqb projectType "nodejs" then configureNodejs config
  else if String.eqb projectType "svelte" then configureSvelte config None
  else if String.eqb projectType "vue" then configureVue config
  else if String.eqb projectType "angular" then configureAngular config
  else Ok config.

(** The steps after the type-specific one. *)
Definition configureOptions (projectType : string)
    (useTypeScript usePrettier : bool) (config : props) : result props :=
  config <-
    (if useTypeScript && negb (String.eqb projectType "nextjs")
     then configureTypeScript config else Ok config) ;;
  if usePrettier then configurePrettier config else Ok config.

Definition generateConfig (projectType : string)
    (useTypeScript useStrict usePrettier : bool)
    (packageJson existingConfig : props) : result props :=
  eslintConfig <-
    mergeConfigs (VObj (baseConfig projectType useStrict packageJson))
                 existingConfig ;;
  eslintConfig <- configureProject projectType useTypeScript eslintConfig ;;
  configureOptions projectType useTypeScript usePrettier eslintConfig.

End eslintConfigGenerator.
Import eslintConfigGenerator.

(** ** The dependency catalog: [dependencyManager] *)

(** [String.prototype.includes]. *)
Fixpoint includes (s sub : string) : bool :=
  if String.prefix sub s then true
  else match s with
       | EmptyString => false
       | String _ rest => includes rest sub
       end.

(** [String.prototype.endsWith]. *)
Definition endsWith (s suffix : string) : bool :=
  let n := String.length s in
  let m := String.length suffix in
  (m <=? n)%nat && String.eqb (substring (n - m) m s) suffix.

(** Lookup in one of the static tables keyed by project type. *)
Fixpoint lookup {A : Type} (key : string) (table : list (string * A))
  : option A :=
  match table with
  | [] => None
  | (k, a) :: rest => if String.eqb k key then Some a else lookup key rest
  end.

Definition PROJECT_TYPES : list string :=
  ["nextjs"; "react"; "nodejs"; "angular"; "vue"; "svelte"].

Module dependencyManager.

Definition commonDependencies : list string :=
  ["eslint@^8.56.0"; "prettier@^3.2.5"; "eslint-config-prettier@^9.1.0";
   "eslint-plugin-prettier@^5.1.3"].

Definition typeSpecificDependencies : list (string * list string) :=
  [("nextjs", ["eslint-config-next@latest"]);
   ("react", ["eslint-plugin-react@^7.34.1"; "eslint-plugin-react-hooks@^4.6.0";
              "eslint-plugin-jsx-a11y@^6.8.0"; "eslint-config-react-app@^7.0.1";
              "eslint-plugin-import@^2.29.1"]);
   ("nodejs", ["eslint-plugin-node@^11.1.0"]);
   ("angular", ["@angular-eslint/eslint-plugin@^17.3.0";
                "@angular-eslint/eslint-plugin-template@^17.3.0"]);
   ("vue", ["eslint-plugin-vue@^9.23.0"]);
   ("svelte", ["eslint-plugin-svelte@latest"; "svelte-eslint-parser@latest";
               "prettier-plugin-svelte@latest"; "eslint-config-prettier@latest";
               "svelte-check@latest"])].

Definition typescriptDependencies : list string :=
  ["@typescript-eslint/parser@^7.1.0"; "@typescript-eslint/eslint-plugin@^7.1.0"].

Definition huskyDependencies : list string :=
  ["husky@^9.0.11"; "lint-staged@^15.2.2"].

(** Spreading [typeSpecificDependencies[projectType]] throws when the type
    is no key of the table. *)
Definition getProjectDependencies (projectType : string)
    (useTypeScript usePrettier : bool) : result (list string) :=
  match lookup projectType typeSpecificDependencies with
  | None => Throw "TypeError: undefined is not iterable"
  | Some specific =>
      let deps := commonDependencies ++ specific in
      let deps :=
        if useTypeScript && negb (String.eqb projectType "nextjs")
        then deps ++ typescriptDependencies else deps in
      let deps :=
        if negb usePrettier
        then filter (fun dep => negb (includes dep "prettier")) deps
        else deps in
      Ok deps
  end.

End dependencyManager.

(** The package name of a specifier [name@range]: the text before its last
    [@], the first character apart (a scoped name starts with [@]). *)
Fixpoint nameTail (rest : string) : string :=
  match rest with
  | EmptyString => EmptyString
  | String c r =>
      if Ascii.eqb c "@"%char && negb (includes r "@") then EmptyString
      else String c (nameTail r)
  end.

Definition specifierName (dep : string) : string :=
  match dep with
  | EmptyString => EmptyString
  | String c r => String c (nameTail r)
  end.

(** ** Files written by the wizard: [fileSystem] and its neighbours

    The writer and the installer are collaborators outside the engine: what
    the wizard asks of them is recorded as an event, and taken to succeed. *)

Inductive event : Type :=
| WriteJson (path : string) (content : value)
| WriteText (path : string) (content : string)
| Uninstall (dep : string)
| Install (deps : list string)
| HuskySetup
| Exit (code : Z) (msg : string).

Definition newline : string := String (Ascii.ascii_of_nat 10) EmptyString.

Module fileSystem.

Definition commonIgnores : list string :=
  ["node_modules"; "dist"; "build"; "coverage"; "*.min.js"; "*.d.ts"].

Definition typeSpecificIgnores : list (string * list string) :=
  [("nextjs", ["next.config.js"; ".next"]);
   ("react", ["react-app-env.d.ts"]);
   ("nodejs", []);
   ("svelte", ["rollup.config.js"; "svelte.config.js"; ".svelte-kit"; "package";
               "build"; ".env"; ".env.*"; "!.env.example"; "vite.config.js"])].

(** [[...commonIgnores, ...(typeSpecificIgnores[projectType] || [])]]. *)
Definition eslintIgnores (projectType : string) : list string :=
  commonIgnores ++
  match lookup projectType typeSpecificIgnores with
  | Some l => l
  | None => []
  end.

Definition prettierIgnores : list string :=
  ["node_modules"; "dist"; "build"; "coverage"; "*.min.js"; "*.d.ts"; ".next";
   "package-lock.json"; "yarn.lock"].

Definition createEslintIgnore (projectType : string) : event :=
  WriteText ".eslintignore" (String.concat newline (eslintIgnores projectType)).

Definition createPrettierIgnore : event :=
  WriteText ".prettierignore" (String.concat newline prettierIgnores).

(** [{ ...packageJson, ...updates }], over the manifest as
    [updatePackageJson] reads it again at that moment. *)
Definition updatedPackageJson (packageJson updates : props) : props :=
  assign packageJson updates.

Definition updatePackageJson (packageJson updates : props) : event :=
  WriteJson "package.json" (VObj (updatedPackageJson packageJson updates)).

End fileSystem.

Module packageManager.

Definition conflictingDependencies : list (string * list string) :=
  [("nextjs", ["@next/eslint-plugin-next"]); ("react", []); ("nodejs", []);
   ("angular", []); ("vue", []); ("svelte", [])].

(** The [for ... of] over [conflictingDependencies[projectType]] throws when
    the type is no key of the table; a failed uninstall is only logged. *)
Definition removeConflictingDependencies (projectType : string)
  : result (list event) :=
  match lookup projectType conflictingDependencies with
  | Some conflicting => Ok (map Uninstall conflicting)
  | None => Throw "TypeError: undefined is not iterable"
  end.

End packageManager.

Module prettierConfigGenerator.

Definition baseConfig : props :=
  [("singleQuote", VBool true); ("trailingComma", VStr "es5");
   ("printWidth", VNum 100); ("tabWidth", VNum 2); ("semi", VBool true)].

Definition generateConfig (projectType : string) : props :=
  if String.eqb projectType "svelte"
  then assign baseConfig
         [("plugins", VArr [VStr "prettier-plugin-svelte"]);
          ("svelteStrictMode", VBool false);
          ("svelteAllowShorthand", VBool true);
          ("svelteIndentScriptAndStyle", VBool true)]
  else baseConfig.

End prettierConfigGenerator.

(** The [tsConfig] literal of [createSvelteTsConfig]. *)
Definition tsConfig : props :=
  [("extends", VStr "@tsconfig/svelte/tsconfig.json");
   ("compilerOptions",
    VObj [("moduleResolution", VStr "node"); ("target", VStr "esnext");
          ("module", VStr "esnext"); ("importsNotUsedAsValues", VStr "error");
          ("isolatedModules", VBool true); ("sourceMap", VBool true);
          ("esModuleInterop", VBool true); ("skipLibCheck", VBool true);
          ("forceConsistentCasingInFileNames", VBool true);
          ("allowJs", VBool true); ("checkJs", VBool true);
          ("baseUrl", VStr ".");
          ("paths", VObj [("$lib", VArr [VStr "src/lib"]);
                          ("$lib/*", VArr [VStr "src/lib/*"])])]);
   ("include", VArr (strs ["src/**/*.d.ts"; "src/**/*.ts"; "src/**/*.js";
                           "src/**/*.svelte"]));
   ("exclude", VArr (strs ["node_modules/*"; "__sapper__/*"; "public/*"]))].

Definition createSvelteTsConfig : event :=
  WriteJson "tsconfig.json" (VObj tsConfig).

(** [isSvelteUsingTypeScript()]; the argument is the outcome of
    [fs.readdir(process.cwd())], and a failed listing is caught. *)
Definition isSvelteUsingTypeScript (listing : result (list string)) : bool :=
  match listing with
  | Ok files =>
      existsb (fun file => String.eqb file "tsconfig.json"
                           || endsWith file ".ts" || endsWith file ".svelte")
              files
  | Throw _ => false
  end.

(** ** The orchestrator: [setupProject] after the prompts

    The answers and what the file system holds are inputs; the run is the
    list of events it emits.  An error thrown by the engine is caught by
    [setupProject], which ends the run with [process.exit(1)] after the
    events already emitted. *)

Record options : Type := mkOptions {
  projectType : string;
  useTypeScript : bool;
  useHusky : bool;
  useStrict : bool;
  usePrettier : bool }.

Record environment : Type := mkEnvironment {
  (** [fs.readdir(process.cwd())] *)
  listing : result (list string);
  (** the document of the first lint configuration file found, if any *)
  existingESLintConfig : option props;
  (** the answer to the overwrite question *)
  overwrite : bool;
  (** [package.json] as read after the installation *)
  packageJson : props;
  (** [package.json] as [updatePackageJson] reads it again *)
  manifest : props }.

(** The second derivation of [useTypeScript]: for svelte the prompted answer
    is replaced by the detection. *)
Definition effectiveTypeScript (answers : options) (env : environment) : bool :=
  if String.eqb (projectType answers) "svelte"
  then isSvelteUsingTypeScript (listing env)
  else useTypeScript answers.

(** [existingConfig]: the document found, unless there is none or the user
    chose to overwrite it. *)
Definition existingConfigOf (env : environment) : props :=
  match existingESLintConfig env with
  | Some doc => if overwrite env then [] else doc
  | None => []
  end.

(** [o?.[key]] on a property that may be missing. *)
Definition member (o : option value) (key : string) : option value :=
  match o with
  | Some (VObj ps) => get key ps
  | _ => None
  end.

(** The [scripts] object of [packageJsonUpdates], as it stands when the
    update is written; [old] is [packageJson.scripts]. *)
Definition updatedScripts (projectType : string) (usePrettier : bool)
    (old : option value) : props :=
  let scripts :=
    assign (spread_object (or_default old (VObj [])))
      [("lint", or_default (member old "lint") (VStr "eslint ."));
       ("lint:fix", or_default (member old "lint:fix") (VStr "eslint . --fix"))] in
  let scripts :=
    if String.eqb projectType "svelte"
    then assign scripts
           [("lint", VStr "eslint --ignore-path .gitignore .");
            ("lint:fix", VStr "eslint --ignore-path .gitignore --fix .");
            ("check", VStr "svelte-check --tsconfig ./tsconfig.json");
            ("format", VStr "prettier --write --plugin prettier-plugin-svelte .")]
    else scripts in
  if usePrettier
  then set "format" (or_default (member old "format") (VStr "prettier --write ."))
           scripts
  else scripts.

(** The [packageJsonUpdates] object [setupProject] builds. *)
Definition packageJsonUpdates (projectType : string)
    (usePrettier useHusky : bool) (packageJson : props) : props :=
  let updates :=
    [("scripts",
      VObj (updatedScripts projectType usePrettier (get "scripts" packageJson)))] in
  if useHusky
  then set "lint-staged"
         (VObj [("*.{js,jsx,ts,tsx,svelte}", VArr [VStr "eslint --fix"]);
                ("*.{json,md,css,html,svelte}", VArr [VStr "prettier --write"])])
         updates
  else updates.

Definition setupProject (answers : options) (env : environment) : list event :=
  let projectType := projectType answers in
  let useTypeScript := effectiveTypeScript answers env in
  (if String.eqb projectType "svelte" && useTypeScript
   then [createSvelteTsConfig] else []) ++
  match packageManager.removeConflictingDependencies projectType with
  | Throw msg => [Exit 1 msg]
  | Ok uninstalls =>
    uninstalls ++
    match dependencyManager.getProjectDependencies projectType useTypeScript
            (usePrettier answers) with
    | Throw msg => [Exit 1 msg]
    | Ok dependencies =>
      Install dependencies ::
      match generateConfig projectType useTypeScript (useStrict answers)
              (usePrettier answers) (packageJson env) (existingConfigOf env) with
      | Throw msg => [Exit 1 msg]
      | Ok eslintConfig =>
        [WriteJson ".eslintrc.json" (VObj eslintConfig);
         fileSystem.createEslintIgnore projectType] ++
        (if usePrettier answers
         then [WriteJson ".prettierrc"
                 (VObj (prettierConfigGenerator.generateConfig projectType));
               fileSystem.createPrettierIgnore]
         else []) ++
        (if useHusky answers
         then [Install dependencyManager.huskyDependencies; HuskySetup]
         else []) ++
        [fileSystem.updatePackageJson (manifest env)
           (packageJsonUpdates projectType (usePrettier answers)
              (useHusky answers) (packageJson env))]
      end
    end
  end.

(** ** The prompts: [userInteraction]

    The answers typed at the terminal are a list of lines, consumed from the
    front. *)

Module userInteraction.

(** [String.prototype.toLowerCase] on the letters A to Z; other bytes are
    left as they are.  No character outside ASCII lower-cases to a letter of
    the words compared below, so the tests built on it are exact. *)
Definition lowerChar (c : ascii) : ascii :=
  let n := Ascii.nat_of_ascii c in
  if (65 <=? n)%nat && (n <=? 90)%nat then Ascii.ascii_of_nat (n + 32) else c.

Fixpoint toLowerCase (s : string) : string :=
  match s with
  | EmptyString => EmptyString
  | String c rest => String (lowerChar c) (toLowerCase rest)
  end.

(** [prompt(question, validator)]: the loop asks again, after a warning,
    until an answer passes the validator.  The result counts the warnings
    and gives the accepted answer with the lines left; [None] when the input
    ends first (the wizard then waits). *)
Fixpoint prompt (validator : string -> bool) (input : list string)
  : nat * option (string * list string) :=
  match input with
  | [] => (0%nat, None)
  | answer :: rest =>
      if validator answer then (0%nat, Some (answer, rest))
      else let (warnings, r) := prompt validator rest in (S warnings, r)
  end.

(** The validator of the first question:
    [config.PROJECT_TYPES.includes(answer.toLowerCase())]. *)
Definition validProjectType (answer : string) : bool :=
  existsb (String.eqb (toLowerCase answer)) PROJECT_TYPES.

(** [answer.toLowerCase() === 'y']. *)
Definition isYes (answer : string) : bool :=
  String.eqb (toLowerCase answer) "y".

(** [getProjectOptions()]: the type question with its validator, then four
    questions that accept any line.  The type is returned as it was typed. *)
Definition getProjectOptions (input : list string)
  : option (options * list string) :=
  match snd (prompt validProjectType input) with
  | Some (projectType, a :: b :: c :: d :: rest) =>
      Some (mkOptions projectType (isYes a) (isYes b) (isYes c) (isYes d), rest)
  | _ => None
  end.

End userInteraction.

(** ** The first version of the wizard

    [bin/index.js] also holds the earlier version of the program, whose
    [setupProject] builds the dependency list, the lint configuration and
    the [package.json] update in line.  These are the three computations. *)

Module Legacy.

Definition commonDependencies : list string :=
  ["eslint@^8.39.0"; "prettier@^2.8.8"; "eslint-config-prettier@^8.8.0";
   "eslint-plugin-prettier@^4.2.1"].

Definition typeSpecificDependencies : list (string * list string) :=
  [("nextjs", ["@next/eslint-plugin-next@^13.3.4"]);
   ("react", ["eslint-plugin-react@^7.32.2"; "eslint-plugin-react-hooks@^4.6.0";
              "eslint-plugin-jsx-a11y@^6.7.1"]);
   ("nodejs", ["eslint-plugin-node@^11.1.0"]);
   ("angular", ["@angular-eslint/eslint-plugin@^16.0.3";
                "@angular-eslint/eslint-plugin-template@^16.0.3"]);
   ("vue", ["eslint-plugin-vue@^9.11.0"]);
   ("svelte", ["eslint-plugin-svelte@^2.27.1"])].

Definition typescriptDependencies : list string :=
  ["@typescript-eslint/parser@^5.59.5"; "@typescript-eslint/eslint-plugin@^5.59.5"].

(** The [dependencies] list of [setupProject]. *)
Definition dependencies (projectType : string)
    (useTypeScript usePrettier : bool) : result (list string) :=
  match lookup projectType typeSpecificDependencies with
  | None => Throw "TypeError: undefined is not iterable"
  | Some specific =>
      let deps := commonDependencies ++ specific in
      let deps := if useTypeScript then deps ++ typescriptDependencies else deps in
      Ok (if negb usePrettier
          then filter (fun dep => negb (includes dep "prettier")) deps
          else deps)
  end.

Definition eslintConfigs : list (string * props) :=
  [("nextjs",
    [("extends", VArr (strs ["next/core-web-vitals";
                             "plugin:@next/next/recommended";
                             "plugin:prettier/recommended"]))]);
   ("react",
    [("extends", VArr (strs ["eslint:recommended"; "plugin:react/recommended";
                             "plugin:react/jsx-runtime";
                             "plugin:react-hooks/recommended";
                             "plugin:jsx-a11y/recommended";
                             "plugin:prettier/recommended"]));
     ("plugins", VArr (strs ["react"; "react-hooks"; "jsx-a11y"]));
     ("settings", VObj [("react", VObj [("version", VStr "detect")])]);
     ("rules", VObj [("react/react-in-jsx-scope", VStr "off");
                     ("react/prop-types", VStr "off")])]);
   ("nodejs",
    [("extends", VArr (strs ["eslint:recommended"; "plugin:node/recommended";
                             "plugin:prettier/recommended"]));
     ("plugins", VArr (strs ["node"]))]);
   ("angular",
    [("extends", VArr (strs ["eslint:recommended";
                             "plugin:@angular-eslint/recommended";
                             "plugin:@angular-eslint/template/recommended";
                             "plugin:prettier/recommended"]));
     ("plugins", VArr (strs ["@angular-eslint"]))]);
   ("vue",
    [("extends", VArr (strs ["eslint:recommended"; "plugin:vue/vue3-recommended";
                             "plugin:prettier/recommended"]));
     ("plugins", VArr (strs ["vue"]))]);
   ("svelte",
    [("extends", VArr (strs ["eslint:recommended"; "plugin:svelte/recommended";
                             "plugin:prettier/recommended"]));
     ("plugins", VArr (strs ["svelte"]));
     ("overrides", VArr [VObj [("files", VArr (strs ["*.svelte"]));
                               ("parser", VStr "svelte-eslint-parser")]])])].

(** [config[key].unshift(x)]. *)
Definition unshift (key : string) (x : value) (config : props) : result props :=
  match get key config with
  | Some (VArr items) => Ok (set key (VArr (x :: items)) config)
  | _ => Throw "TypeError: Cannot read properties of undefined"
  end.

(** The [eslintConfig] object of [setupProject], as it is written to
    [.eslintrc.json]. *)
Definition eslintConfig (projectType : string) (useTypeScript useStrict : bool)
  : result props :=
  let template :=
    match lookup projectType eslintConfigs with
    | Some t => t
    | None => []
    end in
  let config :=
    assign template
      [("root", VBool true);
       ("env", VObj [("browser", VBool true); ("es2021", VBool true);
                     ("node", VBool true)]);
       ("parserOptions", VObj [("ecmaVersion", VNum 2021);
                               ("sourceType", VStr "module")])] in
  config <-
    (if useTypeScript then
       let config := set "parser" (VStr "@typescript-eslint/parser") config in
       config <- append_to "plugins" (strs ["@typescript-eslint"]) config ;;
       unshift "extends" (VStr "plugin:@typescript-eslint/recommended") config
     else Ok config) ;;
  Ok (if useStrict
      then extend_object "rules"
             [("no-console", VStr "error"); ("no-debugger", VStr "error");
              ("no-unused-vars", VStr "error")] config
      else config).

(** The [packageJsonUpdates] object of [setupProject]. *)
Definition packageJsonUpdates (usePrettier useHusky : bool) : props :=
  let scripts :=
    [("lint", VStr "eslint ."); ("lint:fix", VStr "eslint . --fix")] in
  let scripts :=
    if usePrettier then set "format" (VStr "prettier --write .") scripts
    else scripts in
  let updates := [("scripts", VObj scripts)] in
  if useHusky
  then set "lint-staged"
         (VObj [("*.{js,jsx,ts,tsx}", VArr [VStr "eslint --fix"]);
                ("*.{json,md}", VArr [VStr "prettier --write"])])
         updates
  else updates.

(** [updatePackageJson(updates)]: [{ ...packageJson, ...updates }]. *)
Definition updatedPackageJson (packageJson updates : props) : props :=
  assign packageJson updates.

End Legacy.

(** ** Notions the properties are stated with *)

(** *** Configuration documents and their shapes *)

Fixpoint nodupb (l : list string) : bool :=
  match l with
  | [] => true
  | x :: r => negb (existsb (String.eqb x) r) && nodupb r
  end.

(** A field of a ConfigurationDocument: a scalar, a sequence of scalars, or
    a nested document, whose keys are pairwise distinct. *)
Fixpoint is_field (v : value) : bool :=
  match v with
  | VArr items => forallb is_scalar items
  | VObj ps => nodupb (map fst ps) && forallb (fun kv => is_field (snd kv)) ps
  | _ => true
  end.

Definition is_document (d : props) : bool := is_field (VObj d).

(** The sequence held at a place, empty when the place holds none. *)
Definition seq_of (x : option value) : list value :=
  match x with Some (VArr items) => items | _ => [] end.

(** The nested document held at a place, empty when the place holds none. *)
Definition doc_of (x : option value) : props :=
  match x with Some (VObj ps) => ps | _ => [] end.

(** The base holds at a place what the incoming side holds there, a sequence
    for a sequence and a nested document for a nested document, or it holds
    nothing ([undefined] or a falsy scalar, which [||] replaces). *)
Definition same_shape (current : option value) (v : value) : bool :=
  match v with
  | VArr _ => isArray (or_default current (VArr []))
  | VObj _ => match or_default current (VObj []) with VObj _ => true | _ => false end
  | _ => true
  end.

(** [same_shape] at every place the merge visits. *)
Fixpoint compatible (current : option value) (v : value) {struct v} : bool :=
  same_shape current v &&
  match v with
  | VObj entries =>
      forallb (fun kv => compatible (get (fst kv) (doc_of current)) (snd kv))
              entries
  | _ => true
  end.

Definition shape_compatible (base incoming : props) : bool :=
  compatible (Some (VObj base)) (VObj incoming).

(** *** Fields at a path, and unions of sequences *)

(** The field at a path of keys through nested documents. *)
Fixpoint get_path (path : list string) (v : value) : option value :=
  match path with
  | [] => Some v
  | key :: rest =>
      match v with
      | VObj ps =>
          match get key ps with
          | Some w => get_path rest w
          | None => None
          end
      | _ => None
      end
  end.

Definition get_path_opt (path : list string) (x : option value) : option value :=
  match x with
  | Some v => get_path path v
  | None => None
  end.

(** [r] holds exactly the elements of [a] and [b], and is their
    concatenation when that repeats nothing. *)
Definition union_of (r a b : list value) : Prop :=
  (forall x, In x r <-> In x a \/ In x b) /\
  (NoDup (a ++ b) -> r = a ++ b).

(** *** Documents up to order and repetition *)

(** Equality of two documents up to the order of elements within their
    sequences. *)
Fixpoint same_up_to_order (x y : value) {struct x} : Prop :=
  match x, y with
  | VArr a, VArr b => Permutation a b
  | VObj ps, VObj qs =>
      (fix fields (ps qs : props) {struct ps} : Prop :=
         match ps, qs with
         | [], [] => True
         | p :: ps', q :: qs' =>
             fst p = fst q /\ same_up_to_order (snd p) (snd q) /\ fields ps' qs'
         | _, _ => False
         end) ps qs
  | _, _ => x = y
  end.

(** The document with every sequence reduced to its first occurrences. *)
Fixpoint normalize (v : value) : value :=
  match v with
  | VArr items => VArr (set_dedup items)
  | VObj ps => VObj (map (fun kv => (fst kv, normalize (snd kv))) ps)
  | _ => v
  end.

Definition normalize_doc (d : props) : props :=
  map (fun kv => (fst kv, normalize (snd kv))) d.

(** No sequence of the document repeats an element. *)
Fixpoint no_repeats (v : value) : Prop :=
  match v with
  | VArr items => NoDup items
  | VObj ps =>
      (fix fields (ps : props) : Prop :=
         match ps with
         | [] => True
         | kv :: rest => no_repeats (snd kv) /\ fields rest
         end) ps
  | _ => True
  end.

(** *** What the augmentation steps append to [extends] *)

(** The field holds a sequence, or nothing. *)
Definition seq_or_absent (x : option value) : Prop :=
  match x with
  | None | Some (VArr _) => True
  | Some _ => False
  end.

(** What each augmentation appends to [extends]. *)
Definition typeExtends (projectType : string) : list value :=
  if String.eqb projectType "react"
  then strs ["plugin:react/recommended"; "plugin:react/jsx-runtime";
             "plugin:react-hooks/recommended"; "plugin:jsx-a11y/recommended";
             "plugin:import/errors"; "plugin:import/warnings"]
  else if String.eqb projectType "nextjs" then strs ["next/core-web-vitals"]
  else if String.eqb projectType "nodejs" then strs ["plugin:node/recommended"]
  else if String.eqb projectType "vue" then strs ["plugin:vue/vue3-recommended"]
  else if String.eqb projectType "angular"
  then strs ["plugin:@angular-eslint/recommended";
             "plugin:@angular-eslint/template/process-inline-templates"]
  else [].

Definition optionExtends (projectType : string)
    (useTypeScript usePrettier : bool) : list value :=
  (if useTypeScript && negb (String.eqb projectType "nextjs")
   then strs ["plugin:@typescript-eslint/recommended"] else []) ++
  (if usePrettier then strs ["plugin:prettier/recommended"] else []).

(** *** Well-formed objects *)

(** The keys of every object reached through objects are pairwise distinct,
    as they are in any JavaScript object. *)
Fixpoint distinct_keys (v : value) : bool :=
  match v with
  | VObj ps =>
      nodupb (map fst ps) && forallb (fun kv => distinct_keys (snd kv)) ps
  | _ => true
  end.

(** The keys of [incoming] that [base] does not have. *)
Definition new_keys (base incoming : props) : list string :=
  filter (fun k => negb (existsb (String.eqb k) (keys base))) (keys incoming).

(** *** Keys an object holds as its own

    A property read [o[key]] also finds what [o] inherits from
    [Object.prototype], and a write to [__proto__] replaces the prototype
    instead of adding a property; [get] and [set] are the reads and writes of
    own properties.  The two agree on every key that is none of the names
    below.  Keys made of digits only are enumerated before all other keys,
    whatever the order of insertion; the association list keeps insertion
    order.  The properties that depend on either are stated for documents
    whose keys avoid them. *)

(** The properties of [Object.prototype]. *)
Definition inherited_names : list string :=
  ["__proto__"; "constructor"; "hasOwnProperty"; "isPrototypeOf";
   "propertyIsEnumerable"; "toLocaleString"; "toString"; "valueOf";
   "__defineGetter__"; "__defineSetter__"; "__lookupGetter__";
   "__lookupSetter__"].

(** The key names nothing an object inherits. *)
Definition own_name (key : string) : bool :=
  negb (existsb (String.eqb key) inherited_names).

Definition is_digit (c : ascii) : bool :=
  let n := Ascii.nat_of_ascii c in (48 <=? n)%nat && (n <=? 57)%nat.

Fixpoint all_digits (s : string) : bool :=
  match s with
  | EmptyString => true
  | String c rest => is_digit c && all_digits rest
  end.

(** An integer-like key: digits only. *)
Definition index_like (key : string) : bool :=
  negb (String.eqb key "") && all_digits key.

(** Own-named and not integer-like. *)
Definition ordinary_name (key : string) : bool :=
  own_name key && negb (index_like key).

(** Every key of the value, through nested objects, passes the test.  The
    merge never looks inside the elements of a sequence. *)
Fixpoint keys_all (ok : string -> bool) (v : value) : bool :=
  match v with
  | VObj ps => forallb (fun kv => ok (fst kv) && keys_all ok (snd kv)) ps
  | _ => true
  end.

Definition own_names (d : props) : bool := keys_all own_name (VObj d).

Definition ordinary_keys (d : props) : bool := keys_all ordinary_name (VObj d).

(** The walk along [path] leaves the document at a key it does not have:
    every key before it leads to a nested document, and that document lacks
    the next key. *)
Fixpoint absent_in (path : list string) (v : value) : bool :=
  match path with
  | [] => false
  | key :: rest =>
      match v with
      | VObj ps =>
          match get key ps with
          | None => true
          | Some w => absent_in rest w
          end
      | _ => false
      end
  end.

(** *** Configurations the rule functions can work on *)

Definition holds_object (x : option value) : Prop :=
  match x with Some (VObj _) => True | _ => False end.

(** [extends] and [plugins] can be spread into an array, and
    [parserOptions] can take a new member. *)
Definition ready (config : props) : Prop :=
  seq_or_absent (get "extends" config) /\
  seq_or_absent (get "plugins" config) /\
  holds_object (get "parserOptions" config).

(** An existing configuration of the usual shape: objects where the base
    literal has objects, sequences (or nothing) for [extends] and
    [plugins]. *)
Definition well_shaped (base existingConfig : props) : Prop :=
  distinct_keys (VObj existingConfig) = true /\
  shape_compatible base existingConfig = true /\
  seq_or_absent (get "extends" existingConfig) /\
  seq_or_absent (get "plugins" existingConfig) /\
  (get "parserOptions" existingConfig = None \/
   holds_object (get "parserOptions" existingConfig)).

(** The severity a configuration gives a rule: [config.rules[rule]]. *)
Definition rule_of (config : props) (rule : string) : option value :=
  member (get "rules" config) rule.

(** The rules the strictness step writes that the rule function of the
    project type leaves alone: all three, but for svelte, whose rule function
    writes [no-unused-vars]. *)
Definition kept_rule (projectType rule : string) : Prop :=
  rule = "no-console" \/ rule = "no-debugger" \/
  (rule = "no-unused-vars" /\ String.eqb projectType "svelte" = false).

(** *** Events of a run *)

(** The event installs or writes something of the formatter. *)
Definition formatter_artefact (e : event) : bool :=
  match e with
  | WriteJson path _ => String.eqb path ".prettierrc"
  | WriteText path _ => String.eqb path ".prettierignore"
  | Install deps => existsb (fun dep => includes dep "prettier") deps
  | _ => false
  end.

Definition is_exit (e : event) : bool :=
  match e with Exit _ _ => true | _ => false end.

(** The event writes no file, or writes [tsconfig.json]. *)
Definition writes_at_most_tsconfig (e : event) : bool :=
  match e with
  | WriteJson path _ => String.eqb path "tsconfig.json"
  | WriteText _ _ => false
  | _ => true
  end.

(** The event installs one of the TypeScript packages. *)
Definition installs_typescript (e : event) : bool :=
  match e with
  | Install deps =>
      existsb (fun dep => existsb (String.eqb dep)
                                  dependencyManager.typescriptDependencies) deps
  | _ => false
  end.

(** The outcome is a thrown error. *)
Definition throws {A : Type} (r : result A) : bool :=
  match r with
  | Throw _ => true
  | Ok _ => false
  end.

(** The engine throws on these answers: the project type is no key of the
    tables, or [generateConfig] throws. *)
Definition engine_throws (answers : options) (env : environment) : bool :=
  throws (packageManager.removeConflictingDependencies (projectType answers))
  || throws (dependencyManager.getProjectDependencies (projectType answers)
               (effectiveTypeScript answers env) (usePrettier answers))
  || throws (generateConfig (projectType answers)
               (effectiveTypeScript answers env) (useStrict answers)
               (usePrettier answers) (packageJson env) (existingConfigOf env)).

Definition writes_tsconfig (e : event) : bool :=
  match e with
  | WriteJson path _ => String.eqb path "tsconfig.json"
  | _ => false
  end.

(** * Properties *)

(** ** Objects: reads and writes *)

Section Objects.

Lemma get_set_same (key : string) (v : value) (o : props) :
  get key (set key v o) = Some v.
Proof.
  induction o as [|[k w] rest IH]; simpl.
  - now rewrite String.eqb_refl.
  - destruct (String.eqb k key) eqn:E; simpl; rewrite E; auto.
Qed.

Lemma get_set_other (key key' : string) (v : value) (o : props) :
  String.eqb key key' = false ->
  get key' (set key v o) = get key' o.
Proof.
  intros Hne. induction o as [|[k w] rest IH]; simpl.
  - now rewrite Hne.
  - destruct (String.eqb k key) eqn:E; simpl.
    + apply String.eqb_eq in E. subst k. now rewrite Hne.
    + destruct (String.eqb k key'); auto.
Qed.

Lemma get_set (key key' : string) (v : value) (o : props) :
  get key' (set key v o) = if String.eqb key key' then Some v else get key' o.
Proof.
  destruct (String.eqb key key') eqn:E.
  - apply String.eqb_eq in E. subst. apply get_set_same.
  - now apply get_set_other.
Qed.

(** Writing back the value a key already has changes nothing. *)
Lemma set_get_id (key : string) (v : value) (o : props) :
  get key o = Some v -> set key v o = o.
Proof.
  induction o as [|[k w] rest IH]; simpl; [discriminate|].
  destruct (String.eqb k key) eqn:E.
  - intros [= ->]. reflexivity.
  - intros H. now rewrite IH.
Qed.

Lemma get_In (key : string) (v : value) (o : props) :
  get key o = Some v -> In (key, v) o.
Proof.
  induction o as [|[k w] rest IH]; simpl; [discriminate|].
  destruct (String.eqb k key) eqn:E.
  - apply String.eqb_eq in E. intros [= ->]. subst. now left.
  - intros H. right. auto.
Qed.

Lemma get_None_keys (key : string) (o : props) :
  get key o = None <-> ~ In key (keys o).
Proof.
  induction o as [|[k w] rest IH]; simpl.
  - tauto.
  - destruct (String.eqb k key) eqn:E.
    + apply String.eqb_eq in E. split; [discriminate | intros H; exfalso; auto].
    + apply String.eqb_neq in E. rewrite IH. tauto.
Qed.

Lemma In_get (key : string) (v : value) (o : props) :
  NoDup (keys o) -> In (key, v) o -> get key o = Some v.
Proof.
  induction o as [|[k w] rest IH]; simpl; [tauto|].
  intros Hnd [Heq | Hin].
  - injection Heq as -> ->. now rewrite String.eqb_refl.
  - inversion Hnd as [|? ? Hk Hrest]; subst.
    destruct (String.eqb k key) eqn:E.
    + apply String.eqb_eq in E. subst k. exfalso. apply Hk.
      change key with (fst (key, v)). now apply in_map.
    + auto.
Qed.

(** A write keeps the keys in place, or adds the new key last. *)
Lemma keys_set (key : string) (v : value) (o : props) :
  keys (set key v o) =
  match get key o with Some _ => keys o | None => keys o ++ [key] end.
Proof.
  induction o as [|[k w] rest IH]; simpl; auto.
  destruct (String.eqb k key) eqn:E; simpl; auto.
  rewrite IH. now destruct (get key rest).
Qed.

Lemma get_app (key : string) (o1 o2 : props) :
  get key (o1 ++ o2) =
  match get key o1 with Some v => Some v | None => get key o2 end.
Proof.
  induction o1 as [|[k w] rest IH]; simpl; auto.
  now destruct (String.eqb k key).
Qed.

Lemma set_app_fresh (key : string) (v : value) (o1 o2 : props) :
  get key o1 = None ->
  set key v (o1 ++ o2) = o1 ++ set key v o2.
Proof.
  induction o1 as [|[k w] rest IH]; simpl; auto.
  destruct (String.eqb k key); [discriminate|].
  intros H. now rewrite IH.
Qed.

(** [{...target, ...src}] read at a key. *)
Lemma get_assign (key : string) (src target : props) :
  NoDup (keys src) ->
  get key (assign target src) =
  match get key src with Some v => Some v | None => get key target end.
Proof.
  unfold assign. revert target.
  induction src as [|[k w] rest IH]; simpl; intros target Hnd; auto.
  inversion Hnd as [|? ? Hk Hrest]; subst.
  rewrite IH by assumption.
  destruct (String.eqb k key) eqn:E.
  - apply String.eqb_eq in E. subst k.
    apply get_None_keys in Hk. rewrite Hk. apply get_set_same.
  - destruct (get key rest); auto. now apply get_set_other.
Qed.

End Objects.

(** ** Structural comparison decides equality *)

Lemma value_eqb_eq (a b : value) : value_eqb a b = true <-> a = b.
Proof.
  revert b. induction a as [| x | x | x | xs IH | ps IH] using value_ind;
    intros b; destruct b as [| y | y | y | ys | qs]; simpl;
    try (split; [discriminate | congruence]); try tauto.
  - rewrite Bool.eqb_true_iff. split; congruence.
  - rewrite Z.eqb_eq. split; congruence.
  - rewrite String.eqb_eq. split; congruence.
  - revert ys. induction IH as [|x xs Hx _ IHxs]; intros [|y ys];
      try (split; [discriminate | congruence]); try tauto.
    rewrite andb_true_iff, Hx. specialize (IHxs ys).
    split.
    + intros [-> H]. apply IHxs in H. congruence.
    + intros [= -> ->]. split; auto. now apply IHxs.
  - revert qs. induction IH as [|[k x] ps Hx _ IHps]; intros [|[k' y] qs];
      try (split; [discriminate | congruence]); try tauto.
    simpl in Hx. rewrite !andb_true_iff, String.eqb_eq, Hx.
    specialize (IHps qs). split.
    + intros [[-> ->] H]. apply IHps in H. congruence.
    + intros [= -> -> ->]. repeat split; auto. now apply IHps.
Qed.

Lemma value_eqb_refl (a : value) : value_eqb a a = true.
Proof. now apply value_eqb_eq. Qed.

(** ** [[...new Set(l)]] *)

Section SetDedup.

Lemma seen_In (x : value) (seen : list value) :
  existsb (value_eqb x) seen = true <-> In x seen.
Proof.
  rewrite existsb_exists. split.
  - intros (y & Hy & E). apply value_eqb_eq in E. now subst.
  - intros H. exists x. split; auto. apply value_eqb_refl.
Qed.

Lemma seen_not_In (x : value) (seen : list value) :
  existsb (value_eqb x) seen = false <-> ~ In x seen.
Proof.
  rewrite <- seen_In. destruct (existsb (value_eqb x) seen); split; congruence.
Qed.

Lemma In_set_fold (x : value) (l seen : list value) :
  In x (fold_left set_add l seen) <-> In x seen \/ In x l.
Proof.
  revert seen. induction l as [|y l IH]; simpl; intros seen; [tauto|].
  rewrite IH. unfold set_add.
  destruct (existsb (value_eqb y) seen) eqn:E.
  - apply seen_In in E. split; [tauto|]. intros [H|[<-|H]]; auto.
  - rewrite in_app_iff. simpl. tauto.
Qed.

Lemma NoDup_set_fold (l seen : list value) :
  NoDup seen -> NoDup (fold_left set_add l seen).
Proof.
  revert seen. induction l as [|y l IH]; simpl; intros seen Hnd; auto.
  apply IH. unfold set_add.
  destruct (existsb (value_eqb y) seen) eqn:E; auto.
  apply seen_not_In in E.
  apply NoDup_app; auto.
  - constructor; [tauto | constructor].
  - intros a Ha [<-|[]]. contradiction.
Qed.

(** Values all seen before leave the set as it is. *)
Lemma set_fold_seen (l seen : list value) :
  incl l seen -> fold_left set_add l seen = seen.
Proof.
  induction l as [|y l IH]; simpl; intros Hincl; auto.
  unfold set_add at 2.
  assert (In y seen) as Hy by (apply Hincl; now left).
  apply seen_In in Hy. rewrite Hy.
  apply IH. intros a Ha. apply Hincl. now right.
Qed.

(** Fresh, pairwise distinct values are appended in order. *)
Lemma set_fold_fresh (l seen : list value) :
  NoDup (seen ++ l) -> fold_left set_add l seen = seen ++ l.
Proof.
  revert seen. induction l as [|y l IH]; simpl; intros seen Hnd.
  - now rewrite app_nil_r.
  - unfold set_add at 2.
    assert (~ In y seen) as Hy.
    { apply NoDup_remove_2 in Hnd. rewrite in_app_iff in Hnd. tauto. }
    apply seen_not_In in Hy. rewrite Hy.
    rewrite IH; rewrite <- app_assoc; auto.
Qed.

Lemma In_set_dedup (x : value) (l : list value) :
  In x (set_dedup l) <-> In x l.
Proof. unfold set_dedup. rewrite In_set_fold. simpl. tauto. Qed.

Lemma NoDup_set_dedup (l : list value) : NoDup (set_dedup l).
Proof. apply NoDup_set_fold. constructor. Qed.

Lemma set_dedup_NoDup (l : list value) : NoDup l -> set_dedup l = l.
Proof. intros H. unfold set_dedup. now rewrite set_fold_fresh. Qed.

Lemma set_dedup_app (l1 l2 : list value) :
  set_dedup (l1 ++ l2) = fold_left set_add l2 (set_dedup l1).
Proof. unfold set_dedup. apply fold_left_app. Qed.

(** A sequence united with itself is its own deduplication. *)
Lemma set_dedup_twice (l : list value) : set_dedup (l ++ l) = set_dedup l.
Proof.
  rewrite set_dedup_app. apply set_fold_seen.
  intros x Hx. now apply In_set_dedup.
Qed.

End SetDedup.

(** ** The merge loop *)

Section MergeLoop.

Variable step : option value -> value -> result value.

(** Keys the incoming object does not have are left as they were. *)
Lemma merge_loop_frame (entries init merged : props) (key : string) :
  merge_loop step entries init = Ok merged ->
  ~ In key (keys entries) ->
  get key merged = get key init.
Proof.
  revert init. induction entries as [|[k v] rest IH]; simpl; intros init.
  - now intros [= ->].
  - destruct (step (get k init) v) as [nv|msg] eqn:E; simpl; [|discriminate].
    intros Hloop Hnot. rewrite (IH _ Hloop) by tauto.
    apply get_set_other. apply String.eqb_neq. tauto.
Qed.

(** At a key of the incoming object the result is one [step] from what the
    base held there. *)
Lemma merge_loop_at (entries init merged : props) (key : string) (v : value) :
  NoDup (keys entries) ->
  merge_loop step entries init = Ok merged ->
  In (key, v) entries ->
  exists nv, step (get key init) v = Ok nv /\ get key merged = Some nv.
Proof.
  revert init. induction entries as [|[k w] rest IH]; simpl; intros init Hnd;
    [tauto|].
  inversion Hnd as [|? ? Hk Hrest]; subst.
  destruct (step (get k init) w) as [nv|msg] eqn:E; simpl; [|discriminate].
  intros Hloop [Heq | Hin].
  - injection Heq as -> ->. exists nv. split; auto.
    rewrite (merge_loop_frame _ _ _ _ Hloop Hk). apply get_set_same.
  - destruct (IH _ Hrest Hloop Hin) as (nv' & Hstep & Hget).
    exists nv'. split; auto.
    rewrite get_set_other in Hstep; auto.
    apply String.eqb_neq. intros ->. apply Hk.
    change key with (fst (key, v)). now apply in_map.
Qed.

(** The loop runs to its end when every step does. *)
Lemma merge_loop_total (entries init : props) :
  NoDup (keys entries) ->
  (forall key v, In (key, v) entries ->
                 exists nv, step (get key init) v = Ok nv) ->
  exists merged, merge_loop step entries init = Ok merged.
Proof.
  revert init. induction entries as [|[k w] rest IH]; simpl; intros init Hnd Hall.
  - now exists init.
  - inversion Hnd as [|? ? Hk Hrest]; subst.
    destruct (Hall k w) as (nv & ->); [now left|]. simpl.
    apply IH; auto. intros key v Hin.
    rewrite get_set_other.
    + apply Hall. now right.
    + apply String.eqb_neq. intros ->. apply Hk.
      change key with (fst (key, v)). now apply in_map.
Qed.

End MergeLoop.

(** ** Configuration documents *)

Lemma nodupb_NoDup (l : list string) : nodupb l = true -> NoDup l.
Proof.
  induction l as [|x r IH]; simpl; [constructor|].
  rewrite andb_true_iff, negb_true_iff. intros [Hx Hr].
  constructor; auto. intros Hin.
  assert (existsb (String.eqb x) r = true) as E.
  { apply existsb_exists. exists x. split; auto. apply String.eqb_refl. }
  congruence.
Qed.

Lemma document_keys (d : props) : is_document d = true -> NoDup (keys d).
Proof.
  unfold is_document. simpl. rewrite andb_true_iff. intros [H _].
  now apply nodupb_NoDup.
Qed.

Lemma document_field (d : props) (key : string) (v : value) :
  is_document d = true -> In (key, v) d -> is_field v = true.
Proof.
  unfold is_document. simpl. rewrite andb_true_iff, forallb_forall.
  intros [_ H] Hin. apply (H _ Hin).
Qed.

Lemma same_shape_seq (current : option value) (items : list value) :
  same_shape current (VArr items) = true ->
  or_default current (VArr []) = VArr (seq_of current).
Proof.
  unfold same_shape, or_default, seq_of.
  destruct current as [[| b | n | s | l | ps]|]; simpl; try reflexivity;
    try discriminate;
    match goal with |- context [if ?c then _ else _] => destruct c end;
    simpl; congruence.
Qed.

Lemma same_shape_doc (current : option value) (entries : props) :
  same_shape current (VObj entries) = true ->
  or_default current (VObj []) = VObj (doc_of current).
Proof.
  unfold same_shape, or_default, doc_of.
  destruct current as [[| b | n | s | l | ps]|]; simpl; try reflexivity;
    try discriminate;
    match goal with |- context [if ?c then _ else _] => destruct c end;
    simpl; congruence.
Qed.

(** On compatible shapes the merge of a field never throws. *)
Lemma mergeField_total (v : value) :
  forall current,
    is_field v = true -> compatible current v = true ->
    exists nv, mergeField current v = Ok nv.
Proof.
  induction v as [| b | n | s | items _ | entries IH] using value_ind;
    intros current Hdoc Hcompat; simpl; eauto.
  - simpl in Hcompat. rewrite andb_true_r in Hcompat.
    rewrite (same_shape_seq current items Hcompat). simpl. eauto.
  - simpl in Hcompat. apply andb_true_iff in Hcompat as [Hshape Hall].
    rewrite (same_shape_doc current entries Hshape). simpl.
    destruct (@merge_loop_total mergeField entries (doc_of current))
      as (sub & Hsub).
    + now apply document_keys.
    + intros key v Hin. rewrite Forall_forall in IH.
      apply (IH (key, v) Hin).
      * now apply (document_field entries key v).
      * rewrite forallb_forall in Hall. apply (Hall (key, v) Hin).
    + change (fun c v => mergeField c v) with mergeField.
      rewrite Hsub. simpl. eauto.
Qed.

(** The branches of [mergeField], one equation each. *)
Lemma mergeField_arr (current : option value) (items : list value) :
  mergeField current (VArr items) =
  (mine <- spread_array (or_default current (VArr [])) ;;
   Ok (VArr (set_dedup (mine ++ items)))).
Proof. reflexivity. Qed.

Lemma mergeField_obj (current : option value) (entries : props) :
  mergeField current (VObj entries) =
  (sub <- mergeConfigs (or_default current (VObj [])) entries ;; Ok (VObj sub)).
Proof. reflexivity. Qed.

Lemma mergeField_scalar (current : option value) (v : value) :
  is_scalar v = true -> mergeField current v = Ok v.
Proof. destruct v; simpl; congruence. Qed.

Lemma shape_compatible_at (base incoming : props) (key : string) (v : value) :
  shape_compatible base incoming = true ->
  In (key, v) incoming ->
  compatible (get key base) v = true.
Proof.
  unfold shape_compatible. simpl. rewrite forallb_forall.
  intros H Hin. apply (H (key, v) Hin).
Qed.

Lemma mergeConfigs_total (base incoming : props) :
  is_document incoming = true ->
  shape_compatible base incoming = true ->
  exists merged, mergeConfigs (VObj base) incoming = Ok merged.
Proof.
  intros Hdoc Hc. unfold mergeConfigs. simpl spread_object.
  apply merge_loop_total.
  - now apply document_keys.
  - intros key v Hin. apply mergeField_total.
    + now apply (document_field incoming key v).
    + now apply (shape_compatible_at base incoming).
Qed.

(** What the merge leaves at a key of the incoming object. *)
Lemma mergeConfigs_at (base incoming merged : props) (key : string) (v : value) :
  NoDup (keys incoming) ->
  mergeConfigs (VObj base) incoming = Ok merged ->
  get key incoming = Some v ->
  exists nv, mergeField (get key base) v = Ok nv /\ get key merged = Some nv.
Proof.
  intros Hnd Hm Hget. apply get_In in Hget.
  exact (merge_loop_at mergeField incoming base merged key v Hnd Hm Hget).
Qed.

(** Fields only the base has are retained unchanged. *)
Lemma mergeConfigs_frame (base incoming merged : props) (key : string) :
  mergeConfigs (VObj base) incoming = Ok merged ->
  get key incoming = None ->
  get key merged = get key base.
Proof.
  intros Hm Hnone. apply get_None_keys in Hnone.
  exact (merge_loop_frame mergeField incoming base merged key Hm Hnone).
Qed.

(** ** C1: how [mergeConfigs] dispatches *)

(** C1, as stated, fails.  The base holds a scalar at [extends] (the string
    form lint configurations allow) and the incoming document a sequence:
    the result is not the incoming sequence but the characters of the base
    string, deduplicated, followed by it.  With a truthy scalar that is no
    string ([root: true]) the merge throws and leaves no result at all. *)
Lemma mergeConfigs_scalar_base_not_overwritten :
  is_scalar (VStr "airbnb") = true /\
  mergeConfigs (VObj [("extends", VStr "airbnb")])
               [("extends", VArr [VStr "standard"])]
  = Ok [("extends", VArr [VStr "a"; VStr "i"; VStr "r"; VStr "b"; VStr "n";
                          VStr "standard"])] /\
  (forall merged,
      mergeConfigs (VObj [("extends", VStr "airbnb")])
                   [("extends", VArr [VStr "standard"])] = Ok merged ->
      get "extends" merged <> Some (VArr [VStr "standard"])) /\
  mergeConfigs (VObj [("root", VBool true)]) [("root", VArr [VStr "x"])]
  = Throw "TypeError: value is not iterable".
Proof.
  repeat split.
  intros merged H. vm_compute in H. injection H as <-. discriminate.
Qed.

(** C1 (amended).  [mergeConfigs] dispatches on the shape of the incoming
    value alone.  An incoming scalar overwrites whatever the base holds.  An
    incoming sequence, over a base that holds a sequence or nothing there,
    gives the deduplicated union, base elements first.  An incoming nested
    document, over a base that holds a nested document or nothing there,
    gives the recursive merge.  When base and incoming agree in shape at every
    place visited, the merge returns a document.  The incoming document has
    no key, at any depth, that names a property objects inherit
    ([constructor], [toString], [__proto__], ...): at such a key the read
    [merged[key]] finds the inherited member and a write to [__proto__] adds
    no property. *)
Theorem mergeConfigs_dispatch (base incoming : props) :
  is_document base = true ->
  is_document incoming = true ->
  own_names incoming = true ->
  (shape_compatible base incoming = true ->
   exists merged, mergeConfigs (VObj base) incoming = Ok merged) /\
  (forall merged key v,
      mergeConfigs (VObj base) incoming = Ok merged ->
      get key incoming = Some v ->
      match v with
      | VArr items =>
          same_shape (get key base) v = true ->
          get key merged
          = Some (VArr (set_dedup (seq_of (get key base) ++ items)))
      | VObj entries =>
          same_shape (get key base) v = true ->
          exists sub,
            mergeConfigs (VObj (doc_of (get key base))) entries = Ok sub /\
            get key merged = Some (VObj sub)
      | _ => get key merged = Some v
      end).
Proof.
  intros _ Hdoc _. split; [now apply mergeConfigs_total|].
  intros merged key v Hm Hget.
  destruct (mergeConfigs_at base incoming merged key v
              (document_keys incoming Hdoc) Hm Hget) as (nv & Hstep & Hnv).
  destruct v as [| b | n | s | items | entries];
    try (simpl in Hstep; injection Hstep as <-; exact Hnv).
  - intros Hs. rewrite mergeField_arr, (same_shape_seq _ items Hs) in Hstep.
    simpl in Hstep. injection Hstep as <-. exact Hnv.
  - intros Hs. rewrite mergeField_obj, (same_shape_doc _ entries Hs) in Hstep.
    destruct (mergeConfigs (VObj (doc_of (get key base))) entries)
      as [sub|msg]; simpl in Hstep; [|discriminate].
    injection Hstep as <-. now exists sub.
Qed.

(** An instance of [mergeConfigs_dispatch]: a base and an incoming document
    of compatible shapes, read at [extends]. *)
Lemma mergeConfigs_dispatch_witness :
  (exists merged,
      mergeConfigs (VObj [("root", VBool true); ("extends", VArr [VStr "a"])])
                   [("extends", VArr [VStr "b"; VStr "a"]); ("root", VBool false)]
      = Ok merged) /\
  get "extends"
      [("root", VBool false); ("extends", VArr [VStr "a"; VStr "b"])]
  = Some (VArr (set_dedup ([VStr "a"] ++ [VStr "b"; VStr "a"]))).
Proof.
  pose proof (mergeConfigs_dispatch
                [("root", VBool true); ("extends", VArr [VStr "a"])]
                [("extends", VArr [VStr "b"; VStr "a"]); ("root", VBool false)]
                eq_refl eq_refl eq_refl) as [Htotal Hat].
  split.
  - apply Htotal. reflexivity.
  - apply (Hat [("root", VBool false); ("extends", VArr [VStr "a"; VStr "b"])]
               "extends" (VArr [VStr "b"; VStr "a"])); reflexivity.
Defined.

(** ** C5: sequences of a merge, and fields of the base alone *)

Lemma union_of_dedup (a b : list value) : union_of (set_dedup (a ++ b)) a b.
Proof.
  split.
  - intros x. rewrite In_set_dedup. apply in_app_iff.
  - apply set_dedup_NoDup.
Qed.

Lemma union_of_left (a : list value) : union_of a a [].
Proof.
  split.
  - intros x. simpl. tauto.
  - intros _. now rewrite app_nil_r.
Qed.

Lemma get_path_opt_nil (current : option value) :
  get_path_opt [] current = current.
Proof. now destruct current. Qed.

Lemma get_path_opt_step (key : string) (path : list string) (current : option value) :
  get_path_opt (key :: path) current
  = get_path_opt path (get key (doc_of current)).
Proof.
  destruct current as [[| b | n | s | l | ps]|]; simpl; auto.
Qed.

Lemma mergeField_paths (v : value) :
  forall current nv path r,
    is_field v = true ->
    compatible current v = true ->
    mergeField current v = Ok nv ->
    get_path path nv = Some (VArr r) ->
    union_of r (seq_of (get_path_opt path current))
               (seq_of (get_path path v)).
Proof.
  induction v as [| b | n | s | items _ | entries IH] using value_ind;
    intros current nv path r Hdoc Hc Hm Hr;
    try (simpl in Hm; injection Hm as <-;
         destruct path; simpl in Hr; discriminate).
  - simpl in Hc. rewrite andb_true_r in Hc.
    rewrite mergeField_arr, (same_shape_seq current items Hc) in Hm.
    simpl in Hm. injection Hm as <-.
    destruct path as [|key path]; simpl in Hr; [|discriminate].
    injection Hr as <-. rewrite get_path_opt_nil. simpl. apply union_of_dedup.
  - simpl in Hc. apply andb_true_iff in Hc as [Hshape Hall].
    rewrite mergeField_obj, (same_shape_doc current entries Hshape) in Hm.
    unfold mergeConfigs in Hm. simpl spread_object in Hm.
    destruct (merge_loop mergeField entries (doc_of current)) as [sub|msg] eqn:Hsub;
      simpl in Hm; [|discriminate].
    injection Hm as <-.
    destruct path as [|key path]; [discriminate|].
    rewrite get_path_opt_step.
    simpl in Hr. simpl get_path.
    destruct (get key sub) as [w|] eqn:Hw; [|discriminate].
    destruct (get key entries) as [v'|] eqn:Hv'.
    + pose proof (get_In _ _ _ Hv') as Hin.
      destruct (merge_loop_at mergeField entries (doc_of current) sub key v'
                  (document_keys entries Hdoc) Hsub Hin) as (nv & Hstep & Hnv).
      assert (nv = w) as -> by congruence.
      rewrite Forall_forall in IH.
      apply (IH (key, v') Hin (get key (doc_of current)) w path r); auto.
      * apply (document_field entries key v' Hdoc Hin).
      * rewrite forallb_forall in Hall. apply (Hall (key, v') Hin).
    + apply get_None_keys in Hv'.
      rewrite (merge_loop_frame mergeField entries (doc_of current) sub key
                 Hsub Hv') in Hw.
      rewrite Hw. simpl. rewrite Hr. simpl. apply union_of_left.
Qed.

(** A sequence of the incoming document arrives: where the incoming value
    holds a sequence, the merged value holds one. *)
Lemma mergeField_arrives (v : value) :
  forall current nv path b,
    is_field v = true ->
    compatible current v = true ->
    mergeField current v = Ok nv ->
    get_path path v = Some (VArr b) ->
    exists r, get_path path nv = Some (VArr r).
Proof.
  induction v as [| b0 | n | s | items _ | entries IH] using value_ind;
    intros current nv path b Hdoc Hc Hm Hb;
    try (destruct path; simpl in Hb; discriminate).
  - simpl in Hc. rewrite andb_true_r in Hc.
    rewrite mergeField_arr, (same_shape_seq current items Hc) in Hm.
    simpl in Hm. injection Hm as <-.
    destruct path as [|key path]; simpl in Hb; [|discriminate].
    simpl. eauto.
  - simpl in Hc. apply andb_true_iff in Hc as [Hshape Hall].
    rewrite mergeField_obj, (same_shape_doc current entries Hshape) in Hm.
    unfold mergeConfigs in Hm. simpl spread_object in Hm.
    destruct (merge_loop mergeField entries (doc_of current)) as [sub|msg] eqn:Hsub;
      simpl in Hm; [|discriminate].
    injection Hm as <-.
    destruct path as [|key path]; [discriminate|].
    simpl in Hb. simpl get_path.
    destruct (get key entries) as [w|] eqn:Hw; [|discriminate].
    pose proof (get_In _ _ _ Hw) as Hin.
    destruct (merge_loop_at mergeField entries (doc_of current) sub key w
                (document_keys entries Hdoc) Hsub Hin) as (nw & Hstep & Hnw).
    rewrite Hnw. rewrite Forall_forall in IH.
    apply (IH (key, w) Hin (get key (doc_of current)) nw path b); auto.
    + apply (document_field entries key w Hdoc Hin).
    + rewrite forallb_forall in Hall. apply (Hall (key, w) Hin).
Qed.

(** What the incoming value does not reach is left as it was, at any
    depth. *)
Lemma mergeField_untouched (v : value) :
  forall current nv path,
    is_field v = true ->
    compatible current v = true ->
    mergeField current v = Ok nv ->
    absent_in path v = true ->
    get_path path nv = get_path_opt path current.
Proof.
  induction v as [| b0 | n | s | items _ | entries IH] using value_ind;
    intros current nv path Hdoc Hc Hm Ha;
    try (destruct path; simpl in Ha; discriminate).
  simpl in Hc. apply andb_true_iff in Hc as [Hshape Hall].
  rewrite mergeField_obj, (same_shape_doc current entries Hshape) in Hm.
  unfold mergeConfigs in Hm. simpl spread_object in Hm.
  destruct (merge_loop mergeField entries (doc_of current)) as [sub|msg] eqn:Hsub;
    simpl in Hm; [|discriminate].
  injection Hm as <-.
  destruct path as [|key path]; [discriminate|].
  rewrite get_path_opt_step. simpl in Ha. simpl get_path.
  destruct (get key entries) as [w|] eqn:Hw.
  - pose proof (get_In _ _ _ Hw) as Hin.
    destruct (merge_loop_at mergeField entries (doc_of current) sub key w
                (document_keys entries Hdoc) Hsub Hin) as (nw & Hstep & Hnw).
    rewrite Hnw. rewrite Forall_forall in IH.
    apply (IH (key, w) Hin (get key (doc_of current)) nw path); auto.
    + apply (document_field entries key w Hdoc Hin).
    + rewrite forallb_forall in Hall. apply (Hall (key, w) Hin).
  - apply get_None_keys in Hw.
    rewrite (merge_loop_frame mergeField entries (doc_of current) sub key
               Hsub Hw).
    now destruct (get key (doc_of current)).
Qed.

(** C5 (as stated) fails where the base holds a scalar and the incoming
    document a sequence: no key holds a sequence on both sides, yet the
    merged sequence has elements that neither document's sequence has. *)
Lemma mergeConfigs_sequence_from_scalar_base :
  is_document [("extends", VStr "airbnb")] = true /\
  is_document [("extends", VArr [VStr "standard"])] = true /\
  (forall key a b,
      get key [("extends", VStr "airbnb")] = Some (VArr a) ->
      get key [("extends", VArr [VStr "standard"])] = Some (VArr b) ->
      forall x, In x a -> ~ In x b) /\
  exists merged r,
    mergeConfigs (VObj [("extends", VStr "airbnb")])
                 [("extends", VArr [VStr "standard"])] = Ok merged /\
    get "extends" merged = Some (VArr r) /\
    In (VStr "a") r /\
    ~ In (VStr "a")
         (seq_of (get "extends" [("extends", VStr "airbnb")]) ++
          seq_of (get "extends" [("extends", VArr [VStr "standard"])])).
Proof.
  split; [reflexivity|]. split; [reflexivity|]. split.
  - intros key a b H. cbn [get] in H.
    destruct (String.eqb "extends" key); discriminate.
  - exists [("extends", VArr [VStr "a"; VStr "i"; VStr "r"; VStr "b"; VStr "n";
                              VStr "standard"])].
    exists [VStr "a"; VStr "i"; VStr "r"; VStr "b"; VStr "n"; VStr "standard"].
    split; [reflexivity|]. split; [reflexivity|]. split; [now left|].
    intros [H|[]]. discriminate.
Qed.

(** C5 (amended).  Let the base [A] hold, wherever the incoming document
    [B] holds a sequence or a nested document, a value of that same shape or
    nothing.  Then [mergeConfigs] returns a document; each sequence-valued
    field of it, at any depth, holds exactly the elements of the sequences
    [A] and [B] hold at that place, and is their concatenation when the two
    share no element and repeat none; every sequence of [B] arrives, the
    result holding a sequence at the same place; the fields only [A] has
    are retained unchanged, and so is, at any depth, what [B] does not
    reach.  [B] has no key, at any depth, that names a property objects
    inherit. *)
Theorem mergeConfigs_sequences (A B : props) :
  is_document A = true ->
  is_document B = true ->
  own_names B = true ->
  shape_compatible A B = true ->
  exists merged,
    mergeConfigs (VObj A) B = Ok merged /\
    (forall path r,
        get_path path (VObj merged) = Some (VArr r) ->
        union_of r (seq_of (get_path path (VObj A)))
                   (seq_of (get_path path (VObj B)))) /\
    (forall path b,
        get_path path (VObj B) = Some (VArr b) ->
        exists r, get_path path (VObj merged) = Some (VArr r)) /\
    (forall key, get key B = None -> get key merged = get key A) /\
    (forall path,
        absent_in path (VObj B) = true ->
        get_path path (VObj merged) = get_path path (VObj A)).
Proof.
  intros _ Hdoc _ Hc.
  destruct (mergeConfigs_total A B Hdoc Hc) as (merged & Hm).
  assert (mergeField (Some (VObj A)) (VObj B) = Ok (VObj merged)) as Hfield.
  { rewrite mergeField_obj. simpl or_default. now rewrite Hm. }
  exists merged. split; [exact Hm|]. split; [|split; [|split]].
  - intros path r Hr.
    apply (mergeField_paths (VObj B) (Some (VObj A)) (VObj merged) path r);
      auto.
  - intros path b Hb.
    apply (mergeField_arrives (VObj B) (Some (VObj A)) (VObj merged) path b);
      auto.
  - intros key. now apply mergeConfigs_frame.
  - intros path Ha.
    apply (mergeField_untouched (VObj B) (Some (VObj A)) (VObj merged) path);
      auto.
Qed.

(** An instance of [mergeConfigs_sequences], with a nested sequence on both
    sides. *)
Lemma mergeConfigs_sequences_witness :
  exists merged,
    mergeConfigs
      (VObj [("root", VBool true);
             ("env", VObj [("globals", VArr [VStr "a"])]);
             ("plugins", VArr [VStr "p"])])
      [("env", VObj [("globals", VArr [VStr "b"; VStr "a"])]);
       ("extends", VArr [VStr "x"])]
    = Ok merged /\
    (forall path r,
        get_path path (VObj merged) = Some (VArr r) ->
        union_of r
          (seq_of (get_path path
             (VObj [("root", VBool true);
                    ("env", VObj [("globals", VArr [VStr "a"])]);
                    ("plugins", VArr [VStr "p"])])))
          (seq_of (get_path path
             (VObj [("env", VObj [("globals", VArr [VStr "b"; VStr "a"])]);
                    ("extends", VArr [VStr "x"])])))) /\
    (forall path b,
        get_path path
          (VObj [("env", VObj [("globals", VArr [VStr "b"; VStr "a"])]);
                 ("extends", VArr [VStr "x"])]) = Some (VArr b) ->
        exists r, get_path path (VObj merged) = Some (VArr r)) /\
    (forall key,
        get key [("env", VObj [("globals", VArr [VStr "b"; VStr "a"])]);
                 ("extends", VArr [VStr "x"])] = None ->
        get key merged
        = get key [("root", VBool true);
                   ("env", VObj [("globals", VArr [VStr "a"])]);
                   ("plugins", VArr [VStr "p"])]) /\
    (forall path,
        absent_in path
          (VObj [("env", VObj [("globals", VArr [VStr "b"; VStr "a"])]);
                 ("extends", VArr [VStr "x"])]) = true ->
        get_path path (VObj merged)
        = get_path path
            (VObj [("root", VBool true);
                   ("env", VObj [("globals", VArr [VStr "a"])]);
                   ("plugins", VArr [VStr "p"])])).
Proof.
  apply mergeConfigs_sequences; reflexivity.
Defined.

(** ** C6: a document merged with itself *)

Lemma keys_normalize_doc (d : props) : keys (normalize_doc d) = keys d.
Proof. unfold keys, normalize_doc. rewrite map_map. reflexivity. Qed.

Lemma normalize_doc_app (d1 d2 : props) :
  normalize_doc (d1 ++ d2) = normalize_doc d1 ++ normalize_doc d2.
Proof. apply map_app. Qed.

(** The loop of [mergeConfigs(X, X)]: the entries already visited are
    normalized in place, the others are still those of [X]. *)
Lemma merge_loop_self (todo : props) :
  forall done,
    NoDup (keys (done ++ todo)) ->
    (forall kv, In kv todo ->
                mergeField (Some (snd kv)) (snd kv) = Ok (normalize (snd kv))) ->
    merge_loop mergeField todo (normalize_doc done ++ todo)
    = Ok (normalize_doc (done ++ todo)).
Proof.
  induction todo as [|[k v] rest IH]; intros done Hnd Hstep.
  - simpl. now rewrite !app_nil_r.
  - assert (get k (normalize_doc done) = None) as Hfresh.
    { apply get_None_keys. rewrite keys_normalize_doc.
      unfold keys in Hnd. rewrite map_app in Hnd. simpl in Hnd.
      apply NoDup_remove_2 in Hnd. rewrite in_app_iff in Hnd. tauto. }
    cbn [merge_loop fst snd].
    rewrite get_app, Hfresh. cbn [get]. rewrite String.eqb_refl.
    pose proof (Hstep (k, v) (or_introl eq_refl)) as Hkv. cbn [snd] in Hkv.
    rewrite Hkv. cbn [bind].
    rewrite set_app_fresh by exact Hfresh. cbn [set]. rewrite String.eqb_refl.
    specialize (IH (done ++ [(k, v)])).
    rewrite normalize_doc_app, <- !app_assoc in IH. simpl in IH.
    apply IH; auto.
    intros kv Hin. apply Hstep. now right.
Qed.

Lemma mergeField_self (v : value) :
  is_field v = true -> mergeField (Some v) v = Ok (normalize v).
Proof.
  induction v as [| b | n | s | items _ | entries IH] using value_ind;
    intros Hdoc; try reflexivity.
  - rewrite mergeField_arr. simpl. now rewrite set_dedup_twice.
  - rewrite mergeField_obj. simpl or_default.
    unfold mergeConfigs. simpl spread_object.
    pose proof (merge_loop_self entries []) as Hloop. simpl in Hloop.
    rewrite Hloop; [reflexivity | now apply document_keys |].
    intros [k v] Hin. rewrite Forall_forall in IH.
    apply (IH (k, v) Hin). apply (document_field entries k v Hdoc Hin).
Qed.

Lemma normalize_no_repeats (v : value) : no_repeats v -> normalize v = v.
Proof.
  induction v as [| b | n | s | items _ | entries IH] using value_ind;
    intros Hnr; try reflexivity.
  - simpl in *. now rewrite set_dedup_NoDup.
  - simpl. f_equal. induction IH as [|[k v] rest Hv _ IHrest]; auto.
    destruct Hnr as [Hnv Hrest]. simpl in *.
    rewrite Hv by exact Hnv. f_equal. now apply IHrest.
Qed.

(** C6 (as stated) fails on a document a sequence of which repeats an
    element: the merge drops the repetition, and no reordering of the result
    gives the document back. *)
Lemma mergeConfigs_self_drops_repetition :
  is_document
    [("extends", VArr [VStr "eslint:recommended"; VStr "prettier";
                       VStr "eslint:recommended"])] = true /\
  mergeConfigs
    (VObj [("extends", VArr [VStr "eslint:recommended"; VStr "prettier";
                             VStr "eslint:recommended"])])
    [("extends", VArr [VStr "eslint:recommended"; VStr "prettier";
                       VStr "eslint:recommended"])]
  = Ok [("extends", VArr [VStr "eslint:recommended"; VStr "prettier"])] /\
  ~ same_up_to_order
      (VObj [("extends", VArr [VStr "eslint:recommended"; VStr "prettier"])])
      (VObj [("extends", VArr [VStr "eslint:recommended"; VStr "prettier";
                               VStr "eslint:recommended"])]).
Proof.
  split; [reflexivity|]. split; [reflexivity|].
  simpl. intros (_ & Hperm & _).
  apply Permutation_length in Hperm. discriminate.
Qed.

(** C6 (amended).  For every ConfigurationDocument [X], [mergeConfigs(X, X)]
    returns [X] with each sequence reduced to its first occurrences, in
    their order; it returns [X] itself when no sequence of [X] repeats an
    element. *)
Theorem mergeConfigs_self (X : props) :
  is_document X = true ->
  mergeConfigs (VObj X) X = Ok (normalize_doc X) /\
  (no_repeats (VObj X) -> mergeConfigs (VObj X) X = Ok X).
Proof.
  intros Hdoc.
  assert (mergeConfigs (VObj X) X = Ok (normalize_doc X)) as Hself.
  { pose proof (mergeField_self (VObj X) Hdoc) as H.
    rewrite mergeField_obj in H. simpl or_default in H.
    destruct (mergeConfigs (VObj X) X) as [m|msg]; simpl in H; [|discriminate].
    injection H as ->. reflexivity. }
  split; [exact Hself|].
  intros Hnr. rewrite Hself. f_equal.
  pose proof (normalize_no_repeats (VObj X) Hnr) as H. simpl in H.
  now injection H.
Qed.

(** An instance of [mergeConfigs_self]: a document without repetition
    merges with itself to itself. *)
Lemma mergeConfigs_self_witness :
  mergeConfigs
    (VObj [("root", VBool true);
           ("env", VObj [("node", VBool true)]);
           ("extends", VArr [VStr "eslint:recommended"; VStr "prettier"])])
    [("root", VBool true);
     ("env", VObj [("node", VBool true)]);
     ("extends", VArr [VStr "eslint:recommended"; VStr "prettier"])]
  = Ok [("root", VBool true);
        ("env", VObj [("node", VBool true)]);
        ("extends", VArr [VStr "eslint:recommended"; VStr "prettier"])].
Proof.
  apply mergeConfigs_self; [reflexivity|].
  simpl. repeat split.
  repeat constructor; simpl; intuition discriminate.
Defined.

(** ** C3: the base rules map *)

(** C3 (as stated) fails in its second half: with [useStrict] false the base
    rules map does not leave [no-debugger] and [no-unused-vars] open, it sets
    both to ['error']; for a type whose rule function sets neither (nodejs)
    that is their severity in the generated document. *)
Lemma baseRules_lenient_sets_debugger_and_unused :
  ~ (get "no-debugger" (baseRules false) = None /\
     get "no-unused-vars" (baseRules false) = None) /\
  get "no-debugger" (baseRules false) = Some (VStr "error") /\
  get "no-unused-vars" (baseRules false) = Some (VStr "error") /\
  exists cfg rules,
    generateConfig "nodejs" false false false [] [] = Ok cfg /\
    get "rules" cfg = Some (VObj rules) /\
    get "no-debugger" rules = Some (VStr "error") /\
    get "no-unused-vars" rules = Some (VStr "error").
Proof.
  split; [intros [H _]; discriminate|].
  split; [reflexivity|]. split; [reflexivity|].
  eexists. eexists. repeat split.
Qed.

(** C3 (amended).  In the base rules map, before the type-specific rules:
    [no-console] is ['error'] when [useStrict] is true and ['warn'] when it
    is false; [no-debugger] and [no-unused-vars] are ['error'] whatever
    [useStrict] is. *)
Theorem baseRules_severities (projectType : string) (useStrict : bool)
    (packageJson : props) :
  get "rules" (baseConfig projectType useStrict packageJson)
  = Some (VObj (baseRules useStrict)) /\
  get "no-console" (baseRules useStrict)
  = Some (VStr (if useStrict then "error" else "warn")) /\
  get "no-debugger" (baseRules useStrict) = Some (VStr "error") /\
  get "no-unused-vars" (baseRules useStrict) = Some (VStr "error").
Proof. repeat split. Qed.

(** ** C4: the dependency list and the formatter *)

Lemma prefix_nil (s : string) : String.prefix "" s = true.
Proof. now destruct s. Qed.

Lemma prefix_trans (a : string) :
  forall b c, String.prefix a b = true -> String.prefix b c = true ->
              String.prefix a c = true.
Proof.
  induction a as [|x a IH]; intros b c Hab Hbc; [apply prefix_nil|].
  destruct b as [|y b]; [discriminate|].
  destruct c as [|z c]; [discriminate|].
  simpl in *.
  destruct (Ascii.ascii_dec x y) as [->|]; [|discriminate].
  destruct (Ascii.ascii_dec y z) as [->|]; [|discriminate].
  eauto.
Qed.

(** The name of a specifier is a prefix of it, so a substring of the name
    is a substring of the specifier. *)
Lemma prefix_includes (p : string) :
  forall s sub, String.prefix p s = true ->
                includes p sub = true -> includes s sub = true.
Proof.
  induction p as [|c p IH]; intros s sub Hp Hsub.
  - cbn [includes] in Hsub.
    destruct sub as [|e sub]; [|discriminate].
    destruct s; reflexivity.
  - destruct s as [|d s]; [discriminate|].
    assert (String.prefix p s = true) as Hp'.
    { simpl in Hp. now destruct (Ascii.ascii_dec c d). }
    cbn [includes] in Hsub |- *.
    destruct (String.prefix sub (String c p)) eqn:E.
    + now rewrite (prefix_trans sub (String c p) (String d s) E Hp).
    + rewrite (IH s sub Hp' Hsub).
      now destruct (String.prefix sub (String d s)).
Qed.

Lemma nameTail_prefix (s : string) : String.prefix (nameTail s) s = true.
Proof.
  induction s as [|c s IH]; simpl; auto.
  destruct (Ascii.eqb c "@" && negb (includes s "@")); simpl; auto.
  destruct (Ascii.ascii_dec c c); congruence.
Qed.

Lemma specifierName_prefix (dep : string) :
  String.prefix (specifierName dep) dep = true.
Proof.
  destruct dep as [|c s]; simpl; auto.
  destruct (Ascii.ascii_dec c c); [apply nameTail_prefix | congruence].
Qed.

(** C4.  For every project type of the enumerated set and every
    [useTypeScript]: with [usePrettier] false [getProjectDependencies]
    returns a list no specifier of which has ['prettier'] in its name, and
    with [usePrettier] true a list that contains the formatter core package
    [prettier@^3.2.5]. *)
Theorem getProjectDependencies_prettier (projectType : string)
    (useTypeScript : bool) :
  In projectType PROJECT_TYPES ->
  (exists deps,
      dependencyManager.getProjectDependencies projectType useTypeScript false
      = Ok deps /\
      forall dep, In dep deps ->
                  includes dep "prettier" = false /\
                  includes (specifierName dep) "prettier" = false) /\
  (exists deps,
      dependencyManager.getProjectDependencies projectType useTypeScript true
      = Ok deps /\
      In "prettier@^3.2.5" deps).
Proof.
  intros Hin.
  assert (exists specific,
             lookup projectType dependencyManager.typeSpecificDependencies
             = Some specific) as (specific & Hspec).
  { simpl in Hin.
    repeat (destruct Hin as [<-|Hin]; [eexists; reflexivity|]).
    contradiction. }
  unfold dependencyManager.getProjectDependencies. rewrite Hspec. split.
  - eexists. split; [reflexivity|]. cbn [negb].
    intros dep Hdep. apply filter_In in Hdep as [_ Hdep].
    apply negb_true_iff in Hdep. split; [exact Hdep|].
    destruct (includes (specifierName dep) "prettier") eqn:E; [|reflexivity].
    rewrite (prefix_includes _ _ _ (specifierName_prefix dep) E) in Hdep.
    discriminate.
  - eexists. split; [reflexivity|]. cbn [negb].
    destruct (useTypeScript && negb (String.eqb projectType "nextjs"));
      rewrite ?in_app_iff; simpl; tauto.
Qed.

(** An instance of [getProjectDependencies_prettier]: svelte, whose
    catalog entry names two packages after the formatter. *)
Lemma getProjectDependencies_prettier_witness :
  (exists deps,
      dependencyManager.getProjectDependencies "svelte" true false = Ok deps /\
      forall dep, In dep deps ->
                  includes dep "prettier" = false /\
                  includes (specifierName dep) "prettier" = false) /\
  (exists deps,
      dependencyManager.getProjectDependencies "svelte" true true = Ok deps /\
      In "prettier@^3.2.5" deps).
Proof.
  apply getProjectDependencies_prettier. simpl. tauto.
Defined.

(** ** C7: the nodejs scenario *)

(** C7.  For type nodejs without TypeScript, strict, with the formatter and
    without an existing configuration: the dependency list is the four
    common packages followed by the Node lint plugin, and holds none of the
    TypeScript packages; the generated rules map has [no-console],
    [no-debugger] and [no-unused-vars] at ['error']; the lint ignore list is
    the common list. *)
Theorem nodejs_scenario (packageJson : props) :
  dependencyManager.getProjectDependencies "nodejs" false true
  = Ok (dependencyManager.commonDependencies ++ ["eslint-plugin-node@^11.1.0"]) /\
  length dependencyManager.commonDependencies = 4%nat /\
  existsb (fun dep => existsb (String.eqb dep)
                              dependencyManager.typescriptDependencies)
          (dependencyManager.commonDependencies ++ ["eslint-plugin-node@^11.1.0"])
  = false /\
  (exists cfg rules,
      generateConfig "nodejs" false true true packageJson [] = Ok cfg /\
      get "rules" cfg = Some (VObj rules) /\
      get "no-console" rules = Some (VStr "error") /\
      get "no-debugger" rules = Some (VStr "error") /\
      get "no-unused-vars" rules = Some (VStr "error")) /\
  fileSystem.eslintIgnores "nodejs" = fileSystem.commonIgnores.
Proof.
  split; [reflexivity|]. split; [reflexivity|]. split; [reflexivity|].
  split; [|reflexivity].
  eexists. eexists. split; [reflexivity|]. repeat split.
Qed.

(** ** C9: the parsers of a svelte project with TypeScript *)

Ltac fields :=
  repeat first [ rewrite get_set_same | rewrite get_set_other by reflexivity ].

(** [configureSvelte] called with one argument: it never throws, and sets
    the four fields below whatever the configuration held. *)
Lemma configureSvelte_one_argument (config : props) :
  exists config',
    configureSvelte config None = Ok config' /\
    get "extends" config'
    = Some (VArr (strs ["eslint:recommended"; "plugin:svelte/recommended"])) /\
    get "plugins" config' = Some (VArr (strs ["svelte"])) /\
    get "parser" config' = Some (VStr "svelte-eslint-parser") /\
    get "overrides" config'
    = Some (VArr [VObj [("files", VArr (strs ["*.svelte"]));
                        ("parser", VStr "svelte-eslint-parser");
                        ("parserOptions", VObj [("parser", VStr "espree")])]]).
Proof.
  eexists. split; [reflexivity|].
  unfold extend_object. repeat split; fields; reflexivity.
Qed.

(** [configureTypeScript] over a configuration whose [plugins] and [extends]
    are sequences: it sets the document-wide parser and leaves [overrides]. *)
Lemma configureTypeScript_fields (config : props) (plugins extends : list value) :
  get "plugins" config = Some (VArr plugins) ->
  get "extends" config = Some (VArr extends) ->
  exists config',
    configureTypeScript config = Ok config' /\
    get "parser" config' = Some (VStr "@typescript-eslint/parser") /\
    get "overrides" config' = get "overrides" config /\
    get "extends" config'
    = Some (VArr (extends ++ strs ["plugin:@typescript-eslint/recommended"])).
Proof.
  intros Hp He. unfold configureTypeScript, append_to, extend_object.
  fields. rewrite Hp. cbn [or_default truthy spread_array bind].
  fields. rewrite He. cbn [or_default truthy spread_array bind].
  eexists. split; [reflexivity|]. repeat split; fields; reflexivity.
Qed.

(** [configurePrettier] over a configuration whose [extends] is a sequence:
    [parser] and [overrides] are left as they are. *)
Lemma configurePrettier_fields (config : props) (extends : list value) :
  get "extends" config = Some (VArr extends) ->
  exists config',
    configurePrettier config = Ok config' /\
    get "parser" config' = get "parser" config /\
    get "overrides" config' = get "overrides" config /\
    get "extends" config'
    = Some (VArr (extends ++ strs ["plugin:prettier/recommended"])).
Proof.
  intros He. unfold configurePrettier, append_to, extend_object.
  rewrite He. cbn [or_default truthy spread_array bind].
  eexists. split; [reflexivity|]. repeat split; fields; reflexivity.
Qed.

(** C9.  For a svelte project with TypeScript, [generateConfig] calls the
    svelte rule function without the [useTypeScript] argument.  Whenever the
    merge with the existing configuration returns, so does [generateConfig];
    in its document the override for [*.svelte] has [parserOptions.parser]
    ['espree'], and the document-wide parser is
    ['@typescript-eslint/parser'], set by the TypeScript step over the
    ['svelte-eslint-parser'] the svelte rule function had set. *)
Theorem svelte_typescript_parsers (useStrict usePrettier : bool)
    (packageJson existingConfig : props) :
  match mergeConfigs (VObj (baseConfig "svelte" useStrict packageJson))
                     existingConfig with
  | Ok merged =>
      configureProject "svelte" true merged = configureSvelte merged None /\
      exists afterSvelte final,
        configureProject "svelte" true merged = Ok afterSvelte /\
        get "parser" afterSvelte = Some (VStr "svelte-eslint-parser") /\
        generateConfig "svelte" true useStrict usePrettier packageJson
                       existingConfig = Ok final /\
        get "parser" final = Some (VStr "@typescript-eslint/parser") /\
        get "overrides" final
        = Some (VArr [VObj [("files", VArr [VStr "*.svelte"]);
                            ("parser", VStr "svelte-eslint-parser");
                            ("parserOptions",
                             VObj [("parser", VStr "espree")])]])
  | Throw msg =>
      generateConfig "svelte" true useStrict usePrettier packageJson
                     existingConfig = Throw msg
  end.
Proof.
  unfold generateConfig.
  destruct (mergeConfigs (VObj (baseConfig "svelte" useStrict packageJson))
                         existingConfig) as [merged|msg]; [|reflexivity].
  cbn [bind]. split; [reflexivity|].
  change (configureProject "svelte" true merged)
    with (configureSvelte merged None).
  destruct (configureSvelte_one_argument merged)
    as (c1 & -> & Hext1 & Hplug1 & Hparser1 & Hover1).
  cbn [bind]. unfold configureOptions.
  change (true && negb (String.eqb "svelte" "nextjs")) with true. cbv iota.
  destruct (configureTypeScript_fields c1 _ _ Hplug1 Hext1)
    as (c2 & -> & Hparser2 & Hover2 & Hext2).
  cbn [bind]. exists c1.
  destruct usePrettier.
  - destruct (configurePrettier_fields c2 _ Hext2)
      as (c3 & -> & Hparser3 & Hover3 & _).
    exists c3. repeat split; auto.
    + now rewrite Hparser3.
    + now rewrite Hover3, Hover2, Hover1.
  - exists c2. repeat split; auto.
    now rewrite Hover2, Hover1.
Qed.

(** ** C8: detection of TypeScript in a svelte project *)

(** C8.  For project type svelte, when the listing of the working directory
    holds a file named [tsconfig.json], or one ending in [.ts] or in
    [.svelte], the effective [useTypeScript] is true whatever was answered,
    and the run writes [tsconfig.json], before anything else. *)
Theorem svelte_detects_typescript (answers : options) (env : environment)
    (files : list string) (file : string) :
  projectType answers = "svelte" ->
  listing env = Ok files ->
  In file files ->
  file = "tsconfig.json" \/ endsWith file ".ts" = true
  \/ endsWith file ".svelte" = true ->
  effectiveTypeScript answers env = true /\
  exists content rest,
    setupProject answers env
    = WriteJson "tsconfig.json" content :: rest.
Proof.
  intros Hpt Hls Hin Hfile.
  assert (effectiveTypeScript answers env = true) as Hts.
  { unfold effectiveTypeScript. rewrite Hpt, Hls.
    change (String.eqb "svelte" "svelte") with true. cbv iota.
    unfold isSvelteUsingTypeScript. apply existsb_exists.
    exists file. split; [exact Hin|].
    destruct Hfile as [-> | [-> | ->]]; [reflexivity | |];
      rewrite ?orb_true_r; reflexivity. }
  split; [exact Hts|].
  unfold setupProject. rewrite Hts, Hpt.
  change (String.eqb "svelte" "svelte" && true) with true. cbv iota.
  eexists. eexists. reflexivity.
Qed.

(** An instance of [svelte_detects_typescript]: a component file in the
    listing, and the answer "no" to the TypeScript question. *)
Lemma svelte_detects_typescript_witness :
  effectiveTypeScript
    (mkOptions "svelte" false false false false)
    (mkEnvironment (Ok ["package.json"; "App.svelte"]) None false [] []) = true /\
  exists content rest,
    setupProject
      (mkOptions "svelte" false false false false)
      (mkEnvironment (Ok ["package.json"; "App.svelte"]) None false [] [])
    = WriteJson "tsconfig.json" content :: rest.
Proof.
  apply (svelte_detects_typescript
           (mkOptions "svelte" false false false false)
           (mkEnvironment (Ok ["package.json"; "App.svelte"]) None false [] [])
           ["package.json"; "App.svelte"] "App.svelte").
  - reflexivity.
  - reflexivity.
  - simpl. tauto.
  - right. right. reflexivity.
Defined.

(** ** C10: the update of [package.json] *)

Lemma updatedScripts_entry (projectType : string) (usePrettier : bool)
    (old : props) (key : string) (v : value) :
  get key old = Some v ->
  get key (updatedScripts projectType usePrettier (Some (VObj old))) <> None /\
  (~ In key ["lint"; "lint:fix"; "format"; "check"] ->
   get key (updatedScripts projectType usePrettier (Some (VObj old))) = Some v) /\
  (projectType <> "svelte" -> truthy v = true ->
   get key (updatedScripts projectType usePrettier (Some (VObj old))) = Some v).
Proof.
  intros Hv. unfold updatedScripts.
  cbn [or_default truthy spread_object member assign fold_left fst snd].
  assert (forall name d, String.eqb name key = true -> truthy v = true ->
                         or_default (get name old) d = v) as Hkept.
  { intros name d E Ht. apply String.eqb_eq in E. subst name.
    unfold or_default. now rewrite Hv, Ht. }
  assert (forall name, String.eqb name key = true ->
                       In key ["lint"; "lint:fix"; "format"; "check"] ->
                       In name ["lint"; "lint:fix"; "format"; "check"]) as Hname.
  { intros name E. apply String.eqb_eq in E. now subst. }
  destruct (String.eqb projectType "svelte") eqn:Epj; destruct usePrettier;
    cbn [fold_left fst snd]; rewrite ?get_set;
    destruct (String.eqb "format" key) eqn:Ef;
    destruct (String.eqb "check" key) eqn:Ec;
    destruct (String.eqb "lint:fix" key) eqn:Elf;
    destruct (String.eqb "lint" key) eqn:El;
    (split; [try discriminate; now rewrite Hv|]);
    (split;
     [ intros Hnot; try exact Hv; exfalso; apply Hnot;
       repeat match goal with
              | E : String.eqb ?name key = true |- _ =>
                  apply String.eqb_eq in E; subst key
              end; simpl; tauto
     | intros Hpt Ht;
       try (apply String.eqb_eq in Epj; contradiction);
       try exact Hv;
       f_equal; now apply Hkept ]).
Qed.

(** The update object: [scripts], then [lint-staged] when the hook manager
    is set up. *)
Lemma packageJsonUpdates_fields (projectType : string)
    (usePrettier useHusky : bool) (packageJson : props) :
  packageJsonUpdates projectType usePrettier useHusky packageJson
  = ("scripts",
     VObj (updatedScripts projectType usePrettier (get "scripts" packageJson)))
    :: (if useHusky
        then [("lint-staged",
               VObj [("*.{js,jsx,ts,tsx,svelte}", VArr [VStr "eslint --fix"]);
                     ("*.{json,md,css,html,svelte}",
                      VArr [VStr "prettier --write"])])]
        else []).
Proof. unfold packageJsonUpdates. now destruct useHusky. Qed.

(** C10 (as stated) fails.  For nodejs a pre-existing [lint] script that is
    the empty string is replaced by the default; for svelte a pre-existing
    [check] script is overwritten. *)
Lemma updatePackageJson_overwrites_scripts :
  fileSystem.updatedPackageJson
    [("name", VStr "app"); ("scripts", VObj [("lint", VStr "")])]
    (packageJsonUpdates "nodejs" false false
       [("name", VStr "app"); ("scripts", VObj [("lint", VStr "")])])
  = [("name", VStr "app");
     ("scripts", VObj [("lint", VStr "eslint .");
                       ("lint:fix", VStr "eslint . --fix")])] /\
  fileSystem.updatedPackageJson
    [("name", VStr "app"); ("scripts", VObj [("check", VStr "tsc --noEmit")])]
    (packageJsonUpdates "svelte" false false
       [("name", VStr "app"); ("scripts", VObj [("check", VStr "tsc --noEmit")])])
  = [("name", VStr "app");
     ("scripts",
      VObj [("check", VStr "svelte-check --tsconfig ./tsconfig.json");
            ("lint", VStr "eslint --ignore-path .gitignore .");
            ("lint:fix", VStr "eslint --ignore-path .gitignore --fix .");
            ("format", VStr "prettier --write --plugin prettier-plugin-svelte .")])].
Proof. split; reflexivity. Qed.

(** C10 (amended).  The update of [package.json] writes only [scripts] and,
    with the hook manager, [lint-staged]: every other top-level field is
    read back as the manifest had it.  Every pre-existing script keeps its
    key; it keeps its value when it is none of [lint], [lint:fix], [format]
    and [check], and, for a project type other than svelte, whenever its
    value is truthy (a non-empty command). *)
Theorem updatePackageJson_frame (projectType : string)
    (usePrettier useHusky : bool) (packageJson manifest : props) :
  (forall key,
      key <> "scripts" -> key <> "lint-staged" ->
      get key (fileSystem.updatedPackageJson manifest
                 (packageJsonUpdates projectType usePrettier useHusky packageJson))
      = get key manifest) /\
  (useHusky = false ->
   get "lint-staged"
       (fileSystem.updatedPackageJson manifest
          (packageJsonUpdates projectType usePrettier useHusky packageJson))
   = get "lint-staged" manifest) /\
  exists scripts,
    get "scripts"
        (fileSystem.updatedPackageJson manifest
           (packageJsonUpdates projectType usePrettier useHusky packageJson))
    = Some (VObj scripts) /\
    forall old key v,
      get "scripts" packageJson = Some (VObj old) ->
      get key old = Some v ->
      get key scripts <> None /\
      (~ In key ["lint"; "lint:fix"; "format"; "check"] ->
       get key scripts = Some v) /\
      (projectType <> "svelte" -> truthy v = true -> get key scripts = Some v).
Proof.
  unfold fileSystem.updatedPackageJson.
  rewrite packageJsonUpdates_fields.
  set (scripts := updatedScripts projectType usePrettier (get "scripts" packageJson)).
  unfold assign.
  split; [|split].
  - intros key Hs Hl.
    apply String.eqb_neq in Hs, Hl. rewrite String.eqb_sym in Hs, Hl.
    destruct useHusky; cbn [fold_left fst snd];
      rewrite ?get_set_other by assumption; reflexivity.
  - intros ->. cbn [fold_left fst snd].
    now rewrite get_set_other.
  - exists scripts. split.
    + destruct useHusky; cbn [fold_left fst snd];
        rewrite ?(get_set_other "lint-staged" "scripts") by reflexivity;
        apply get_set_same.
    + intros old key v Hold Hv. unfold scripts. rewrite Hold.
      now apply updatedScripts_entry.
Qed.

(** An instance of [updatePackageJson_frame]: a pre-existing [lint] script
    of a nodejs project is kept. *)
Lemma updatePackageJson_frame_witness :
  get "lint"
      (updatedScripts "nodejs" true
         (get "scripts"
              [("name", VStr "app");
               ("scripts", VObj [("lint", VStr "eslint src");
                                 ("test", VStr "jest")])]))
  = Some (VStr "eslint src").
Proof.
  destruct (updatePackageJson_frame "nodejs" true false
              [("name", VStr "app");
               ("scripts", VObj [("lint", VStr "eslint src");
                                 ("test", VStr "jest")])]
              [("name", VStr "app");
               ("scripts", VObj [("lint", VStr "eslint src");
                                 ("test", VStr "jest")])])
    as (_ & _ & scripts & Hs & Hentry).
  vm_compute in Hs. injection Hs as <-.
  apply (Hentry [("lint", VStr "eslint src"); ("test", VStr "jest")]
                "lint" (VStr "eslint src")).
  - reflexivity.
  - reflexivity.
  - discriminate.
  - reflexivity.
Defined.

(** ** C2: [extends] after a merge with an existing configuration *)

Lemma seq_or_absent_default (x : option value) :
  seq_or_absent x -> or_default x (VArr []) = VArr (seq_of x).
Proof. destruct x as [[| b | n | s | l | ps]|]; simpl; tauto. Qed.

(** [config.extends = [...(config.extends || []), ...extra]] appends. *)
Lemma append_to_extends (extra : list value) (config config' : props) :
  append_to "extends" extra config = Ok config' ->
  seq_or_absent (get "extends" config) ->
  get "extends" config'
  = Some (VArr (seq_of (get "extends" config) ++ extra)).
Proof.
  unfold append_to. intros H Hseq.
  rewrite (seq_or_absent_default _ Hseq) in H. simpl in H.
  injection H as <-. apply get_set_same.
Qed.

(** The same assignment to another field leaves [extends] alone. *)
Lemma append_to_other (key : string) (extra : list value)
    (config config' : props) :
  String.eqb key "extends" = false ->
  append_to key extra config = Ok config' ->
  get "extends" config' = get "extends" config.
Proof.
  unfold append_to. intros Hkey H.
  destruct (spread_array (or_default (get key config) (VArr [])));
    simpl in H; [|discriminate].
  injection H as <-. now apply get_set_other.
Qed.

Lemma extend_object_other (key : string) (extra config : props) :
  String.eqb key "extends" = false ->
  get "extends" (extend_object key extra config) = get "extends" config.
Proof. intros Hkey. unfold extend_object. now apply get_set_other. Qed.

Lemma set_member_other (key member : string) (v : value)
    (config config' : props) :
  String.eqb key "extends" = false ->
  set_member key member v config = Ok config' ->
  get "extends" config' = get "extends" config.
Proof.
  unfold set_member. intros Hkey H.
  destruct (get key config) as [[| b | n | s | l | ps]|];
    try discriminate; injection H as <-; auto.
  now apply get_set_other.
Qed.

(** Peel one [append_to] off a sequence of steps that returned. *)
Ltac step_append H c1 H1 :=
  match type of H with
  | bind (append_to ?k ?e ?c) _ = Ok _ =>
      destruct (append_to k e c) as [c1|] eqn:H1;
      [cbn [bind] in H | discriminate H]
  end.


(** So do the TypeScript and the formatter steps. *)
Lemma configureOptions_extends (projectType : string)
    (useTypeScript usePrettier : bool) (config config' : props)
    (extends : list value) :
  configureOptions projectType useTypeScript usePrettier config = Ok config' ->
  get "extends" config = Some (VArr extends) ->
  get "extends" config'
  = Some (VArr (extends ++ optionExtends projectType useTypeScript usePrettier)).
Proof.
  unfold configureOptions, optionExtends. intros H He.
  destruct (useTypeScript && negb (String.eqb projectType "nextjs")).
  - unfold configureTypeScript in H.
    match type of H with
    | context [append_to "plugins" ?e ?c] =>
        destruct (append_to "plugins" e c) as [c1|] eqn:H1;
        [|discriminate H]
    end.
    cbn [bind] in H.
    match type of H with
    | context [append_to "extends" ?e ?c] =>
        destruct (append_to "extends" e c) as [c2|] eqn:H2;
        [|discriminate H]
    end.
    cbn [bind] in H.
    assert (get "extends" c1 = Some (VArr extends)) as He1.
    { rewrite (append_to_other "plugins" _ _ _ eq_refl H1).
      now rewrite get_set_other. }
    assert (get "extends" c2
            = Some (VArr (extends ++ strs ["plugin:@typescript-eslint/recommended"])))
      as He2.
    { rewrite (append_to_extends _ _ _ H2); rewrite He1; simpl; auto. }
    destruct usePrettier.
    + unfold configurePrettier in H. step_append H c3 H3.
      injection H as <-. rewrite extend_object_other by reflexivity.
      rewrite (append_to_extends _ _ _ H3);
        rewrite extend_object_other, He2 by reflexivity; simpl; auto.
      now rewrite <- app_assoc.
    + injection H as <-. rewrite extend_object_other by reflexivity.
      now rewrite He2, app_nil_r.
  - cbn [bind] in H. destruct usePrettier.
    + unfold configurePrettier in H. step_append H c3 H3.
      injection H as <-. rewrite extend_object_other by reflexivity.
      rewrite (append_to_extends _ _ _ H3); rewrite He; simpl; auto.
    + injection H as <-. now rewrite He, app_nil_r.
Qed.



(** For svelte the final [extends] does not depend on the existing
    configuration at all. *)
Lemma svelte_extends (useTypeScript useStrict usePrettier : bool)
    (packageJson existingConfig cfg : props) :
  generateConfig "svelte" useTypeScript useStrict usePrettier packageJson
                 existingConfig = Ok cfg ->
  get "extends" cfg
  = Some (VArr (strs ["eslint:recommended"; "plugin:svelte/recommended"]
                ++ optionExtends "svelte" useTypeScript usePrettier)).
Proof.
  unfold generateConfig. intros H.
  destruct (mergeConfigs (VObj (baseConfig "svelte" useStrict packageJson))
                         existingConfig) as [merged|]; [|discriminate].
  cbn [bind] in H.
  change (configureProject "svelte" useTypeScript merged)
    with (configureSvelte merged None) in H.
  destruct (configureSvelte_one_argument merged) as (c1 & Hc1 & Hext & _).
  rewrite Hc1 in H. cbn [bind] in H.
  exact (configureOptions_extends _ _ _ _ _ _ H Hext).
Qed.

(** C2 (the code departs from it).  The final [extends] should hold every
    element of the existing configuration's [extends]; the other rule
    functions append to the merged sequence, the svelte rule function
    assigns [extends] anew.  With the existing configuration
    [{ extends: ['airbnb'] }] kept by the user, the document generated for
    svelte has lost ['airbnb'], while the one generated for nodejs from the
    same input has it before what was appended. *)
Theorem svelte_discards_existing_extends :
  existingConfigOf
    (mkEnvironment (Ok []) (Some [("extends", VArr [VStr "airbnb"])]) false
                   [] [])
  = [("extends", VArr [VStr "airbnb"])] /\
  (exists cfg,
      generateConfig "svelte" false false false []
                     [("extends", VArr [VStr "airbnb"])] = Ok cfg /\
      get "extends" cfg
      = Some (VArr [VStr "eslint:recommended"; VStr "plugin:svelte/recommended"])) /\
  (exists cfg,
      generateConfig "nodejs" false false false []
                     [("extends", VArr [VStr "airbnb"])] = Ok cfg /\
      get "extends" cfg
      = Some (VArr [VStr "airbnb"; VStr "plugin:node/recommended"])).
Proof.
  split; [reflexivity|].
  split; eexists; split; reflexivity.
Qed.

(** * Further properties of the engine *)

(** ** The merge engine *)

Lemma set_fresh (key : string) (v : value) (o : props) :
  get key o = None -> set key v o = o ++ [(key, v)].
Proof.
  induction o as [|[k w] rest IH]; simpl; auto.
  destruct (String.eqb k key); [discriminate|].
  intros H. now rewrite IH.
Qed.

Lemma mem_keys (key : string) (o : props) :
  existsb (String.eqb key) (keys o) = true <-> get key o <> None.
Proof.
  rewrite get_None_keys, existsb_exists. split.
  - intros (k & Hin & E). apply String.eqb_eq in E. subst. tauto.
  - intros H. exists key. split; [|apply String.eqb_refl].
    destruct (in_dec string_dec key (keys o)); tauto.
Qed.

(** The loop over an empty base: the entries are copied in order, each
    sequence deduplicated. *)
Lemma merge_loop_empty (todo : props) :
  forall done,
    NoDup (keys (done ++ todo)) ->
    (forall kv, In kv todo -> mergeField None (snd kv) = Ok (normalize (snd kv))) ->
    merge_loop mergeField todo (normalize_doc done)
    = Ok (normalize_doc (done ++ todo)).
Proof.
  induction todo as [|[k v] rest IH]; intros done Hnd Hstep.
  - simpl. now rewrite app_nil_r.
  - assert (get k (normalize_doc done) = None) as Hfresh.
    { apply get_None_keys. rewrite keys_normalize_doc.
      unfold keys in Hnd. rewrite map_app in Hnd. simpl in Hnd.
      apply NoDup_remove_2 in Hnd. rewrite in_app_iff in Hnd. tauto. }
    cbn [merge_loop fst snd]. rewrite Hfresh.
    pose proof (Hstep (k, v) (or_introl eq_refl)) as Hkv. cbn [snd] in Hkv.
    rewrite Hkv. cbn [bind]. rewrite set_fresh by exact Hfresh.
    specialize (IH (done ++ [(k, v)])).
    rewrite normalize_doc_app, <- app_assoc in IH. simpl in IH.
    apply IH; auto.
    intros kv Hin. apply Hstep. now right.
Qed.

Lemma mergeField_empty (v : value) :
  is_field v = true -> mergeField None v = Ok (normalize v).
Proof.
  induction v as [| b | n | s | items _ | entries IH] using value_ind;
    intros Hdoc; try reflexivity.
  rewrite mergeField_obj. simpl or_default.
  unfold mergeConfigs. simpl spread_object.
  pose proof (merge_loop_empty entries []) as Hloop. simpl in Hloop.
  rewrite Hloop; [reflexivity | now apply document_keys |].
  intros [k v] Hin. rewrite Forall_forall in IH.
  apply (IH (k, v) Hin). apply (document_field entries k v Hdoc Hin).
Qed.

(** Merging a document into the empty base never throws: it copies the
    document, every sequence reduced to its first occurrences.  The keys of
    the document are ordinary names: none that objects inherit, none made of
    digits. *)
Theorem mergeConfigs_into_empty (existingConfig : props) :
  is_document existingConfig = true ->
  ordinary_keys existingConfig = true ->
  mergeConfigs (VObj []) existingConfig = Ok (normalize_doc existingConfig).
Proof.
  intros Hdoc _. pose proof (mergeField_empty (VObj existingConfig) Hdoc) as H.
  rewrite mergeField_obj in H. simpl or_default in H.
  destruct (mergeConfigs (VObj []) existingConfig) as [m|msg];
    simpl in H; [|discriminate].
  injection H as ->. reflexivity.
Qed.

(** An instance: a configuration with a repeated plugin and a nested
    sequence. *)
Lemma mergeConfigs_into_empty_witness :
  mergeConfigs (VObj [])
    [("plugins", VArr [VStr "node"; VStr "node"]);
     ("env", VObj [("globals", VArr [VStr "a"; VStr "b"; VStr "a"])])]
  = Ok [("plugins", VArr [VStr "node"]);
        ("env", VObj [("globals", VArr [VStr "a"; VStr "b"])])].
Proof.
  exact (mergeConfigs_into_empty
           [("plugins", VArr [VStr "node"; VStr "node"]);
            ("env", VObj [("globals", VArr [VStr "a"; VStr "b"; VStr "a"])])]
           eq_refl eq_refl).
Defined.

(** A loop whose every step finds its own result in place changes nothing. *)
Lemma merge_loop_fixed (step : option value -> value -> result value)
    (entries merged : props) :
  (forall kv, In kv entries ->
              exists nv, get (fst kv) merged = Some nv /\
                         step (Some nv) (snd kv) = Ok nv) ->
  merge_loop step entries merged = Ok merged.
Proof.
  induction entries as [|[k v] rest IH]; intros Hall; [reflexivity|].
  destruct (Hall (k, v) (or_introl eq_refl)) as (nv & Hget & Hstep).
  cbn [merge_loop fst snd] in *. rewrite Hget, Hstep. cbn [bind].
  rewrite (set_get_id _ _ _ Hget). apply IH.
  intros kv Hin. apply Hall. now right.
Qed.

(** A field already merged with [v] absorbs [v]. *)
Lemma mergeField_again (v : value) :
  forall current nv,
    is_field v = true ->
    mergeField current v = Ok nv ->
    mergeField (Some nv) v = Ok nv.
Proof.
  induction v as [| b | n | s | items _ | entries IH] using value_ind;
    intros current nv Hdoc Hm;
    try (simpl in Hm |- *; congruence).
  - rewrite mergeField_arr in Hm.
    destruct (spread_array (or_default current (VArr []))) as [mine|];
      simpl in Hm; [|discriminate].
    injection Hm as <-. rewrite mergeField_arr. simpl. f_equal. f_equal.
    rewrite set_dedup_app.
    rewrite (set_dedup_NoDup _ (NoDup_set_dedup (mine ++ items))).
    apply set_fold_seen. intros x Hx.
    apply In_set_dedup, in_app_iff. now right.
  - rewrite mergeField_obj in Hm. unfold mergeConfigs in Hm.
    destruct (merge_loop mergeField entries
                (spread_object (or_default current (VObj []))))
      as [sub|] eqn:Hsub; simpl in Hm; [|discriminate].
    injection Hm as <-. rewrite mergeField_obj. simpl or_default.
    unfold mergeConfigs. simpl spread_object.
    rewrite merge_loop_fixed; [reflexivity|].
    intros [k v] Hin.
    destruct (merge_loop_at mergeField entries _ sub k v
                (document_keys entries Hdoc) Hsub Hin) as (nv & Hstep & Hnv).
    exists nv. split; [exact Hnv|]. cbn [snd].
    rewrite Forall_forall in IH.
    apply (IH (k, v) Hin (get k (spread_object (or_default current (VObj []))))).
    + apply (document_field entries k v Hdoc Hin).
    + exact Hstep.
Qed.

(** Merging the same incoming document a second time changes nothing,
    whatever the base was. *)
Theorem mergeConfigs_again (base incoming merged : props) :
  is_document base = true ->
  is_document incoming = true ->
  mergeConfigs (VObj base) incoming = Ok merged ->
  mergeConfigs (VObj merged) incoming = Ok merged.
Proof.
  intros _ Hdoc Hm.
  assert (mergeField (Some (VObj base)) (VObj incoming) = Ok (VObj merged)) as H.
  { rewrite mergeField_obj. simpl or_default. now rewrite Hm. }
  pose proof (mergeField_again (VObj incoming) (Some (VObj base)) (VObj merged)
                Hdoc H) as H2.
  rewrite mergeField_obj in H2. simpl or_default in H2.
  destruct (mergeConfigs (VObj merged) incoming) as [m|];
    simpl in H2; [|discriminate].
  now injection H2 as ->.
Qed.

(** An instance: an existing configuration over the base of a fresh run. *)
Lemma mergeConfigs_again_witness :
  mergeConfigs
    (VObj [("root", VBool true);
           ("rules", VObj [("no-console", VStr "off"); ("no-debugger", VStr "error")]);
           ("extends", VArr [VStr "airbnb"; VStr "prettier"])])
    [("rules", VObj [("no-console", VStr "off")]);
     ("extends", VArr [VStr "prettier"; VStr "airbnb"])]
  = Ok [("root", VBool true);
        ("rules", VObj [("no-console", VStr "off"); ("no-debugger", VStr "error")]);
        ("extends", VArr [VStr "airbnb"; VStr "prettier"])].
Proof.
  apply (mergeConfigs_again
           [("root", VBool true);
            ("rules", VObj [("no-console", VStr "warn");
                            ("no-debugger", VStr "error")]);
            ("extends", VArr [VStr "airbnb"])]).
  - reflexivity.
  - reflexivity.
  - reflexivity.
Defined.

(** The keys after the loop: those of the start, in place, then the new
    ones in the order the entries bring them. *)
Lemma merge_loop_keys (step : option value -> value -> result value)
    (entries : props) :
  forall init merged,
    NoDup (keys entries) ->
    merge_loop step entries init = Ok merged ->
    keys merged = keys init ++ new_keys init entries.
Proof.
  induction entries as [|[k v] rest IH]; intros init merged Hnd Hloop.
  - simpl in Hloop. injection Hloop as <-. unfold new_keys. simpl.
    now rewrite app_nil_r.
  - inversion Hnd as [|? ? Hk Hrest]; subst.
    cbn [merge_loop fst snd] in Hloop.
    destruct (step (get k init) v) as [nv|]; simpl in Hloop; [|discriminate].
    rewrite (IH _ _ Hrest Hloop).
    pose proof (keys_set k nv init) as Hkeys.
    unfold new_keys at 2. cbn [keys map fst filter].
    fold (keys init). fold (keys rest).
    destruct (get k init) as [w|] eqn:Hget.
    + assert (existsb (String.eqb k) (keys init) = true) as ->.
      { apply mem_keys. congruence. }
      cbn [negb]. unfold new_keys. now rewrite Hkeys.
    + assert (existsb (String.eqb k) (keys init) = false) as ->.
      { destruct (existsb (String.eqb k) (keys init)) eqn:E; auto.
        apply mem_keys in E. congruence. }
      cbn [negb]. unfold new_keys. rewrite Hkeys, <- app_assoc. cbn [app].
      f_equal. f_equal.
      apply filter_ext_in. intros x Hx. f_equal.
      rewrite existsb_app. cbn [existsb].
      assert (String.eqb x k = false) as ->.
      { apply String.eqb_neq. intros ->. exact (Hk Hx). }
      now rewrite !orb_false_r.
Qed.

(** The merge drops no key and reorders none: the merged document has the
    keys of the base, in their order, followed by the keys only the
    incoming document has, in theirs.  The keys of both documents are
    ordinary names: none that objects inherit (a write to [__proto__] adds no
    key), none made of digits (which are enumerated first). *)
Theorem mergeConfigs_keys (base incoming merged : props) :
  ordinary_keys base = true ->
  ordinary_keys incoming = true ->
  NoDup (keys incoming) ->
  mergeConfigs (VObj base) incoming = Ok merged ->
  keys merged = keys base ++ new_keys base incoming.
Proof.
  intros _ _ Hnd Hm. exact (merge_loop_keys mergeField incoming base merged Hnd Hm).
Qed.

(** An instance: an existing configuration that brings [extends] and
    [plugins] and overrides [root]. *)
Lemma mergeConfigs_keys_witness :
  keys [("root", VBool false); ("rules", VObj []); ("plugins", VArr [VStr "p"]);
        ("extends", VArr [VStr "x"])]
  = keys [("root", VBool true); ("rules", VObj [])] ++
    new_keys [("root", VBool true); ("rules", VObj [])]
             [("plugins", VArr [VStr "p"]); ("root", VBool false);
              ("extends", VArr [VStr "x"])].
Proof.
  apply mergeConfigs_keys.
  - reflexivity.
  - reflexivity.
  - repeat constructor; simpl; intuition discriminate.
  - reflexivity.
Defined.

(** ** [generateConfig]: when it returns *)

Lemma distinct_keys_keys (d : props) :
  distinct_keys (VObj d) = true -> NoDup (keys d).
Proof.
  simpl. rewrite andb_true_iff. intros [H _]. now apply nodupb_NoDup.
Qed.

Lemma distinct_keys_field (d : props) (key : string) (v : value) :
  distinct_keys (VObj d) = true -> In (key, v) d -> distinct_keys v = true.
Proof.
  simpl. rewrite andb_true_iff, forallb_forall.
  intros [_ H] Hin. apply (H _ Hin).
Qed.

Lemma mergeField_total_keys (v : value) :
  forall current,
    distinct_keys v = true -> compatible current v = true ->
    exists nv, mergeField current v = Ok nv.
Proof.
  induction v as [| b | n | s | items _ | entries IH] using value_ind;
    intros current Hkeys Hcompat; simpl; eauto.
  - simpl in Hcompat. rewrite andb_true_r in Hcompat.
    rewrite (same_shape_seq current items Hcompat). simpl. eauto.
  - simpl in Hcompat. apply andb_true_iff in Hcompat as [Hshape Hall].
    rewrite (same_shape_doc current entries Hshape). simpl.
    destruct (@merge_loop_total mergeField entries (doc_of current))
      as (sub & Hsub).
    + now apply distinct_keys_keys.
    + intros key v Hin. rewrite Forall_forall in IH.
      apply (IH (key, v) Hin).
      * now apply (distinct_keys_field entries key v).
      * rewrite forallb_forall in Hall. apply (Hall (key, v) Hin).
    + change (fun c v => mergeField c v) with mergeField.
      rewrite Hsub. simpl. eauto.
Qed.

Lemma append_to_seq (key : string) (extra : list value) (config : props) :
  seq_or_absent (get key config) ->
  append_to key extra config
  = Ok (set key (VArr (seq_of (get key config) ++ extra)) config).
Proof.
  intros H. unfold append_to. now rewrite (seq_or_absent_default _ H).
Qed.

(** A sequence the existing configuration holds at a key the base literal
    lacks arrives deduplicated. *)
Lemma merged_seq (key : string) (base existingConfig merged : props) :
  get key base = None ->
  NoDup (keys existingConfig) ->
  seq_or_absent (get key existingConfig) ->
  mergeConfigs (VObj base) existingConfig = Ok merged ->
  seq_or_absent (get key merged) /\
  seq_of (get key merged) = set_dedup (seq_of (get key existingConfig)).
Proof.
  intros Hbase Hnd Hseq Hm.
  destruct (get key existingConfig) as [v|] eqn:Hv.
  - destruct (mergeConfigs_at _ _ _ _ _ Hnd Hm Hv) as (nv & Hstep & Hnv).
    rewrite Hbase in Hstep.
    destruct v; simpl in Hseq; try contradiction.
    simpl in Hstep. injection Hstep as <-. rewrite Hnv. simpl. auto.
  - rewrite (mergeConfigs_frame _ _ _ _ Hm Hv), Hbase. simpl. auto.
Qed.

Ltac ready_fields :=
  unfold ready, extend_object in *; fields; simpl; tauto.

Lemma configureReact_ready (config : props) (useTypeScript : bool) :
  ready config ->
  exists config', configureReact config useTypeScript = Ok config' /\ ready config'.
Proof.
  intros (He & Hp & Ho). unfold configureReact.
  rewrite (append_to_seq "extends" _ _ He). cbn [bind].
  rewrite append_to_seq by (fields; exact Hp). cbn [bind].
  destruct useTypeScript.
  - unfold set_member, extend_object. fields.
    destruct (get "parserOptions" config) as [[| b | n | s | l | ps]|];
      try contradiction.
    eexists. split; [reflexivity|]. unfold ready. fields. simpl. tauto.
  - eexists. split; [reflexivity|]. ready_fields.
Qed.

Lemma configureNextjs_ready (config : props) :
  ready config ->
  exists config', configureNextjs config = Ok config' /\ ready config'.
Proof.
  intros (He & Hp & Ho). unfold configureNextjs.
  rewrite (append_to_seq "extends" _ _ He).
  eexists. split; [reflexivity|]. ready_fields.
Qed.

Lemma configureNodejs_ready (config : props) :
  ready config ->
  exists config', configureNodejs config = Ok config' /\ ready config'.
Proof.
  intros (He & Hp & Ho). unfold configureNodejs.
  rewrite (append_to_seq "extends" _ _ He). cbn [bind].
  rewrite append_to_seq by (fields; exact Hp). cbn [bind].
  eexists. split; [reflexivity|]. ready_fields.
Qed.

Lemma configureSvelte_ready (config : props) :
  ready config ->
  exists config', configureSvelte config None = Ok config' /\ ready config'.
Proof.
  intros (He & Hp & Ho).
  eexists. split; [reflexivity|]. ready_fields.
Qed.

Lemma configureVue_ready (config : props) :
  ready config ->
  exists config', configureVue config = Ok config' /\ ready config'.
Proof.
  intros (He & Hp & Ho). unfold configureVue.
  rewrite (append_to_seq "extends" _ _ He). cbn [bind].
  rewrite append_to_seq by (fields; exact Hp). cbn [bind].
  eexists. split; [reflexivity|]. ready_fields.
Qed.

Lemma configureAngular_ready (config : props) :
  ready config ->
  exists config', configureAngular config = Ok config' /\ ready config'.
Proof.
  intros (He & Hp & Ho). unfold configureAngular.
  rewrite (append_to_seq "extends" _ _ He). cbn [bind].
  rewrite append_to_seq by (fields; exact Hp).
  eexists. split; [reflexivity|]. ready_fields.
Qed.

Lemma configureTypeScript_ready (config : props) :
  ready config ->
  exists config', configureTypeScript config = Ok config' /\ ready config'.
Proof.
  intros (He & Hp & Ho). unfold configureTypeScript.
  rewrite append_to_seq by (fields; exact Hp). cbn [bind].
  rewrite append_to_seq by (fields; exact He). cbn [bind].
  eexists. split; [reflexivity|]. ready_fields.
Qed.

Lemma configurePrettier_ready (config : props) :
  ready config ->
  exists config', configurePrettier config = Ok config' /\ ready config'.
Proof.
  intros (He & Hp & Ho). unfold configurePrettier.
  rewrite (append_to_seq "extends" _ _ He). cbn [bind].
  eexists. split; [reflexivity|]. ready_fields.
Qed.

Lemma configureProject_ready (projectType : string) (useTypeScript : bool)
    (config : props) :
  ready config ->
  exists config',
    configureProject projectType useTypeScript config = Ok config' /\
    ready config'.
Proof.
  intros H. unfold configureProject.
  destruct (String.eqb projectType "react"); [now apply configureReact_ready|].
  destruct (String.eqb projectType "nextjs"); [now apply configureNextjs_ready|].
  destruct (String.eqb projectType "nodejs"); [now apply configureNodejs_ready|].
  destruct (String.eqb projectType "svelte"); [now apply configureSvelte_ready|].
  destruct (String.eqb projectType "vue"); [now apply configureVue_ready|].
  destruct (String.eqb projectType "angular"); [now apply configureAngular_ready|].
  now exists config.
Qed.

Lemma configureOptions_ready (projectType : string)
    (useTypeScript usePrettier : bool) (config : props) :
  ready config ->
  exists config',
    configureOptions projectType useTypeScript usePrettier config = Ok config' /\
    ready config'.
Proof.
  intros H. unfold configureOptions.
  destruct (useTypeScript && negb (String.eqb projectType "nextjs")).
  - destruct (configureTypeScript_ready config H) as (c1 & -> & H1).
    cbn [bind]. destruct usePrettier; [now apply configurePrettier_ready|].
    now exists c1.
  - cbn [bind]. destruct usePrettier; [now apply configurePrettier_ready|].
    now exists config.
Qed.

(** After the merge with a well-shaped existing configuration the rule
    functions can run. *)
Lemma merged_ready (projectType : string) (useStrict : bool)
    (packageJson existingConfig : props) :
  well_shaped (baseConfig projectType useStrict packageJson) existingConfig ->
  exists merged,
    mergeConfigs (VObj (baseConfig projectType useStrict packageJson))
                 existingConfig = Ok merged /\
    ready merged.
Proof.
  intros (Hkeys & Hc & He & Hp & Ho).
  pose proof (distinct_keys_keys _ Hkeys) as Hnd.
  destruct (@merge_loop_total mergeField existingConfig
              (baseConfig projectType useStrict packageJson) Hnd)
    as (merged & Hm).
  { intros key v Hin. apply mergeField_total_keys.
    - now apply (distinct_keys_field existingConfig key v).
    - now apply (shape_compatible_at _ existingConfig). }
  change (mergeConfigs (VObj (baseConfig projectType useStrict packageJson))
                       existingConfig = Ok merged) in Hm.
  exists merged. split; [exact Hm|]. split; [|split].
  - now apply (merged_seq "extends"
                 (baseConfig projectType useStrict packageJson) _ _
                 eq_refl Hnd He Hm).
  - now apply (merged_seq "plugins"
                 (baseConfig projectType useStrict packageJson) _ _
                 eq_refl Hnd Hp Hm).
  - destruct (get "parserOptions" existingConfig) as [v|] eqn:Hv.
    + destruct Ho as [Ho|Ho]; [discriminate|].
      destruct v as [| b | n | s | l | ps]; try contradiction.
      destruct (mergeConfigs_at _ _ _ _ _ Hnd Hm Hv) as (nv & Hstep & Hnv).
      rewrite mergeField_obj in Hstep.
      match type of Hstep with
      | bind ?m _ = _ => destruct m as [sub|]; simpl in Hstep; [|discriminate]
      end.
      injection Hstep as <-. now rewrite Hnv.
    + now rewrite (mergeConfigs_frame _ _ _ _ Hm Hv).
Qed.

(** [generateConfig] returns a document for every project type and every
    choice of options when the existing configuration is well shaped and has
    no key, at any depth, that names a property objects inherit; in
    particular when there is none. *)
Theorem generateConfig_total (projectType : string)
    (useTypeScript useStrict usePrettier : bool)
    (packageJson existingConfig : props) :
  well_shaped (baseConfig projectType useStrict packageJson) existingConfig ->
  own_names existingConfig = true ->
  exists cfg,
    generateConfig projectType useTypeScript useStrict usePrettier
                   packageJson existingConfig = Ok cfg /\
    ready cfg.
Proof.
  intros Hws _. unfold generateConfig.
  destruct (merged_ready _ _ _ _ Hws) as (merged & -> & Hr). cbn [bind].
  destruct (configureProject_ready projectType useTypeScript merged Hr)
    as (c1 & -> & H1).
  cbn [bind]. now apply configureOptions_ready.
Qed.

(** An instance: a react project with TypeScript over an existing
    configuration that has [extends], [rules] and [parserOptions]. *)
Lemma generateConfig_total_witness :
  exists cfg,
    generateConfig "react" true true true []
      [("extends", VArr [VStr "airbnb"]);
       ("rules", VObj [("no-console", VStr "off")]);
       ("parserOptions", VObj [("ecmaVersion", VNum 2020)])] = Ok cfg /\
    ready cfg.
Proof.
  apply generateConfig_total.
  - repeat split; simpl; auto.
  - reflexivity.
Defined.

(** ** [generateConfig]: the rules map *)

Lemma append_to_get_other (key key' : string) (extra : list value)
    (config config' : props) :
  String.eqb key key' = false ->
  append_to key extra config = Ok config' ->
  get key' config' = get key' config.
Proof.
  unfold append_to. intros Hkey H.
  destruct (spread_array (or_default (get key config) (VArr [])));
    simpl in H; [|discriminate].
  injection H as <-. now apply get_set_other.
Qed.

Lemma set_member_get_other (key member key' : string) (v : value)
    (config config' : props) :
  String.eqb key key' = false ->
  set_member key member v config = Ok config' ->
  get key' config' = get key' config.
Proof.
  unfold set_member. intros Hkey H.
  destruct (get key config) as [[| b | n | s | l | ps]|];
    try discriminate; injection H as <-; auto.
  now apply get_set_other.
Qed.

Lemma literal_keys (l : list string) : nodupb l = true -> NoDup l.
Proof. apply nodupb_NoDup. Qed.

(** [config.rules = { ...config.rules, ...extra }] read at a rule. *)
Lemma rule_of_extend_object (extra config : props) (rule : string) :
  nodupb (keys extra) = true ->
  rule_of (extend_object "rules" extra config) rule
  = match get rule extra with
    | Some v => Some v
    | None => get rule (spread_object_opt (get "rules" config))
    end.
Proof.
  intros Hnd. unfold rule_of, extend_object. rewrite get_set_same.
  cbn [member]. apply get_assign. now apply literal_keys.
Qed.

Lemma rule_of_spread (config : props) (rule : string) :
  holds_object (get "rules" config) ->
  get rule (spread_object_opt (get "rules" config)) = rule_of config rule.
Proof.
  unfold rule_of.
  destruct (get "rules" config) as [[| b | n | s | l | ps]|]; simpl; tauto.
Qed.

Lemma extend_object_holds (extra config : props) :
  holds_object (get "rules" (extend_object "rules" extra config)).
Proof. unfold extend_object. now rewrite get_set_same. Qed.

(** A step that rewrites nothing but fields other than [rules] keeps the
    rules map. *)
Lemma rules_unchanged (config config' : props) (rule : string) :
  get "rules" config' = get "rules" config ->
  holds_object (get "rules" config) ->
  rule_of config' rule = rule_of config rule /\
  holds_object (get "rules" config').
Proof. unfold rule_of. intros ->. tauto. Qed.

(** A step that ends by extending [rules] with entries for other rules
    keeps this one. *)
Lemma rules_extended (extra config mid : props) (rule : string) :
  nodupb (keys extra) = true ->
  get rule extra = None ->
  get "rules" mid = get "rules" config ->
  holds_object (get "rules" config) ->
  rule_of (extend_object "rules" extra mid) rule = rule_of config rule /\
  holds_object (get "rules" (extend_object "rules" extra mid)).
Proof.
  intros Hnd Hnone Hmid Hobj. split; [|apply extend_object_holds].
  rewrite rule_of_extend_object by exact Hnd. rewrite Hnone, Hmid.
  now apply rule_of_spread.
Qed.

Ltac kept_cases H :=
  destruct H as [-> | [-> | [-> ?]]].

(** The rule function of the project type leaves the rules of the
    strictness step as the merge left them. *)
Lemma configureProject_rule (projectType rule : string) (useTypeScript : bool)
    (config config' : props) :
  kept_rule projectType rule ->
  configureProject projectType useTypeScript config = Ok config' ->
  holds_object (get "rules" config) ->
  rule_of config' rule = rule_of config rule /\
  holds_object (get "rules" config').
Proof.
  intros Hrule H Hobj. unfold configureProject in H.
  destruct (String.eqb projectType "react").
  { unfold configureReact in H.
    step_append H c1 H1. step_append H c2 H2.
    assert (get "rules" c2 = get "rules" config) as Hc2.
    { rewrite (append_to_get_other "plugins" "rules" _ _ _ eq_refl H2).
      apply (append_to_get_other "extends" "rules" _ _ _ eq_refl H1). }
    match type of H with
    | context [extend_object "rules" ?extra (extend_object "settings" ?st c2)] =>
        assert (rule_of (extend_object "rules" extra
                           (extend_object "settings" st c2)) rule
                = rule_of config rule /\
                holds_object (get "rules" (extend_object "rules" extra
                                             (extend_object "settings" st c2))))
          as Hext
    end.
    { apply rules_extended; [reflexivity | | | exact Hobj].
      - kept_cases Hrule; reflexivity.
      - unfold extend_object at 1. now rewrite get_set_other. }
    destruct useTypeScript.
    - pose proof (set_member_get_other "parserOptions" _ "rules" _ _ _
                    eq_refl H) as Hsm.
      unfold rule_of in *. rewrite Hsm. exact Hext.
    - injection H as <-. exact Hext. }
  destruct (String.eqb projectType "nextjs").
  { apply rules_unchanged; auto.
    apply (append_to_get_other "extends" "rules" _ _ _ eq_refl H). }
  destruct (String.eqb projectType "nodejs").
  { unfold configureNodejs in H.
    step_append H c1 H1. step_append H c2 H2.
    injection H as <-. apply rules_extended; [reflexivity | | | exact Hobj].
    - kept_cases Hrule; reflexivity.
    - rewrite (append_to_get_other "plugins" "rules" _ _ _ eq_refl H2).
      apply (append_to_get_other "extends" "rules" _ _ _ eq_refl H1). }
  destruct (String.eqb projectType "svelte") eqn:Esv.
  { unfold configureSvelte in H. cbn [bind] in H. injection H as <-.
    apply rules_extended; [reflexivity | | | exact Hobj].
    - kept_cases Hrule; try reflexivity. congruence.
    - fields. reflexivity. }
  destruct (String.eqb projectType "vue").
  { unfold configureVue in H.
    step_append H c1 H1. step_append H c2 H2.
    injection H as <-. apply rules_unchanged; auto.
    rewrite get_set_other by reflexivity.
    rewrite (append_to_get_other "plugins" "rules" _ _ _ eq_refl H2).
    apply (append_to_get_other "extends" "rules" _ _ _ eq_refl H1). }
  destruct (String.eqb projectType "angular").
  { unfold configureAngular in H. step_append H c1 H1.
    apply rules_unchanged; auto.
    rewrite (append_to_get_other "plugins" "rules" _ _ _ eq_refl H).
    apply (append_to_get_other "extends" "rules" _ _ _ eq_refl H1). }
  injection H as <-. tauto.
Qed.

Lemma configureTypeScript_rule (rule : string) (config config' : props) :
  get rule [("@typescript-eslint/explicit-function-return-type", VNull);
            ("@typescript-eslint/explicit-module-boundary-types", VNull);
            ("@typescript-eslint/no-explicit-any", VNull)] = None ->
  configureTypeScript config = Ok config' ->
  holds_object (get "rules" config) ->
  rule_of config' rule = rule_of config rule /\
  holds_object (get "rules" config').
Proof.
  intros Hrule H Hobj. unfold configureTypeScript in H.
  step_append H c1 H1. step_append H c2 H2. injection H as <-.
  apply rules_extended; [reflexivity | | | exact Hobj].
  - cbn [get] in *.
    repeat match goal with
           | |- context [String.eqb ?a rule] => destruct (String.eqb a rule)
           end; try discriminate; reflexivity.
  - rewrite (append_to_get_other "extends" "rules" _ _ _ eq_refl H2).
    rewrite (append_to_get_other "plugins" "rules" _ _ _ eq_refl H1).
    now rewrite get_set_other.
Qed.

Lemma configurePrettier_rule (rule : string) (config config' : props) :
  String.eqb "prettier/prettier" rule = false ->
  configurePrettier config = Ok config' ->
  holds_object (get "rules" config) ->
  rule_of config' rule = rule_of config rule /\
  holds_object (get "rules" config').
Proof.
  intros Hrule H Hobj. unfold configurePrettier in H.
  step_append H c1 H1. injection H as <-.
  apply rules_extended; [reflexivity | | | exact Hobj].
  - cbn [get]. now rewrite Hrule.
  - apply (append_to_get_other "extends" "rules" _ _ _ eq_refl H1).
Qed.

(** Neither do the TypeScript and the formatter steps touch a rule that is
    none of theirs. *)
Lemma configureOptions_rule (projectType rule : string)
    (useTypeScript usePrettier : bool) (config config' : props) :
  get rule [("@typescript-eslint/explicit-function-return-type", VNull);
            ("@typescript-eslint/explicit-module-boundary-types", VNull);
            ("@typescript-eslint/no-explicit-any", VNull)] = None ->
  String.eqb "prettier/prettier" rule = false ->
  configureOptions projectType useTypeScript usePrettier config = Ok config' ->
  holds_object (get "rules" config) ->
  rule_of config' rule = rule_of config rule /\
  holds_object (get "rules" config').
Proof.
  intros Hts Hpr H Hobj. unfold configureOptions in H.
  destruct (useTypeScript && negb (String.eqb projectType "nextjs")).
  - destruct (configureTypeScript config) as [c1|] eqn:H1; [|discriminate].
    cbn [bind] in H.
    destruct (configureTypeScript_rule rule config c1 Hts H1 Hobj) as [E1 O1].
    destruct usePrettier.
    + destruct (configurePrettier_rule rule c1 config' Hpr H O1) as [E2 O2].
      split; congruence.
    + injection H as <-. tauto.
  - cbn [bind] in H. destruct usePrettier.
    + now apply configurePrettier_rule.
    + injection H as <-. tauto.
Qed.

(** What [generateConfig] leaves at a rule of the strictness step: what the
    merge left there. *)
Lemma generateConfig_rule (projectType rule : string)
    (useTypeScript useStrict usePrettier : bool)
    (packageJson existingConfig cfg : props) :
  kept_rule projectType rule ->
  generateConfig projectType useTypeScript useStrict usePrettier packageJson
                 existingConfig = Ok cfg ->
  exists merged,
    mergeConfigs (VObj (baseConfig projectType useStrict packageJson))
                 existingConfig = Ok merged /\
    (holds_object (get "rules" merged) ->
     rule_of cfg rule = rule_of merged rule).
Proof.
  intros Hrule H. unfold generateConfig in H.
  destruct (mergeConfigs (VObj (baseConfig projectType useStrict packageJson))
                         existingConfig) as [merged|]; [|discriminate].
  cbn [bind] in H. exists merged. split; [reflexivity|]. intros Hobj.
  destruct (configureProject projectType useTypeScript merged) as [c1|] eqn:H1;
    [|discriminate].
  cbn [bind] in H.
  destruct (configureProject_rule _ _ _ _ _ Hrule H1 Hobj) as [E1 O1].
  assert (rule_of cfg rule = rule_of c1 rule) as E2.
  { apply (configureOptions_rule projectType rule useTypeScript usePrettier
             c1 cfg); auto; kept_cases Hrule; reflexivity. }
  congruence.
Qed.

(** The strictness flag against an existing configuration.  For the rules
    the strictness step writes and the project type's rule function leaves
    alone: without a [rules] map in the existing configuration, or without
    the rule in it, the generated document has the severity of the
    strictness step; a scalar severity in the existing configuration
    replaces it, whatever [useStrict] is. *)
Theorem existing_rule_wins (projectType rule : string)
    (useTypeScript useStrict usePrettier : bool)
    (packageJson existingConfig cfg : props) :
  kept_rule projectType rule ->
  NoDup (keys existingConfig) ->
  generateConfig projectType useTypeScript useStrict usePrettier packageJson
                 existingConfig = Ok cfg ->
  (get "rules" existingConfig = None ->
   rule_of cfg rule = get rule (baseRules useStrict)) /\
  (forall theirs,
      get "rules" existingConfig = Some (VObj theirs) ->
      NoDup (keys theirs) ->
      match get rule theirs with
      | None => rule_of cfg rule = get rule (baseRules useStrict)
      | Some v => is_scalar v = true -> rule_of cfg rule = Some v
      end).
Proof.
  intros Hrule Hnd H.
  destruct (generateConfig_rule _ _ _ _ _ _ _ _ Hrule H) as (merged & Hm & Hcfg).
  split.
  - intros Hnone. pose proof (mergeConfigs_frame _ _ _ _ Hm Hnone) as Hr.
    change (get "rules" (baseConfig projectType useStrict packageJson))
      with (Some (VObj (baseRules useStrict))) in Hr.
    rewrite Hcfg by now rewrite Hr.
    unfold rule_of. now rewrite Hr.
  - intros theirs Hrules Hnd'.
    destruct (mergeConfigs_at _ _ _ _ _ Hnd Hm Hrules) as (nv & Hstep & Hnv).
    change (get "rules" (baseConfig projectType useStrict packageJson))
      with (Some (VObj (baseRules useStrict))) in Hstep.
    rewrite mergeField_obj in Hstep. simpl or_default in Hstep.
    destruct (mergeConfigs (VObj (baseRules useStrict)) theirs) as [sub|] eqn:Hsub;
      simpl in Hstep; [|discriminate].
    injection Hstep as <-.
    rewrite Hcfg by now rewrite Hnv.
    unfold rule_of. rewrite Hnv. cbn [member].
    destruct (get rule theirs) as [v|] eqn:Hv.
    + intros Hscalar.
      destruct (mergeConfigs_at _ _ _ _ _ Hnd' Hsub Hv) as (nv & Hstep & ->).
      rewrite (mergeField_scalar _ v Hscalar) in Hstep. congruence.
    + apply (mergeConfigs_frame _ _ _ _ Hsub Hv).
Qed.

(** An instance: strict mode, and an existing configuration that turns
    [no-console] off. *)
Lemma existing_rule_wins_witness :
  rule_of
    [("root", VBool true);
     ("env", VObj [("browser", VBool true); ("es2022", VBool true);
                   ("node", VBool true)]);
     ("parserOptions", VObj [("ecmaVersion", VStr "latest");
                             ("sourceType", VStr "script")]);
     ("rules", VObj [("no-console", VStr "off"); ("no-debugger", VStr "error");
                     ("no-unused-vars", VStr "error")]);
     ("extends", VArr [VStr "plugin:vue/vue3-recommended"]);
     ("plugins", VArr [VStr "vue"]);
     ("parser", VStr "vue-eslint-parser")]
    "no-console"
  = Some (VStr "off").
Proof.
  refine (proj2 (existing_rule_wins "vue" "no-console" false true false []
                   [("rules", VObj [("no-console", VStr "off")])] _
                   _ _ _)
                [("no-console", VStr "off")] _ _ _).
  - left. reflexivity.
  - repeat constructor; simpl; intuition discriminate.
  - reflexivity.
  - reflexivity.
  - repeat constructor; simpl; intuition discriminate.
  - reflexivity.
Defined.

(** A severity in array form.  The strictness step writes its severities as
    strings; an existing configuration that gives one of these rules as an
    array ([[severity, options]]) is merged through the sequence branch,
    which spreads the string: the generated rule is the characters of the
    base severity, deduplicated, followed by the existing array.  (The
    array repeats no element, so that comparing its objects by contents
    agrees with [Set].) *)
Theorem existing_rule_array_spread (projectType rule : string)
    (useTypeScript useStrict usePrettier : bool)
    (packageJson existingConfig cfg theirs : props) (items : list value)
    (severity : string) :
  kept_rule projectType rule ->
  NoDup (keys existingConfig) ->
  get "rules" existingConfig = Some (VObj theirs) ->
  NoDup (keys theirs) ->
  get rule theirs = Some (VArr items) ->
  NoDup items ->
  get rule (baseRules useStrict) = Some (VStr severity) ->
  generateConfig projectType useTypeScript useStrict usePrettier packageJson
                 existingConfig = Ok cfg ->
  rule_of cfg rule = Some (VArr (set_dedup (chars severity ++ items))).
Proof.
  intros Hrule Hnd Hrules Hnd' Hv _ Hbase H.
  destruct (generateConfig_rule _ _ _ _ _ _ _ _ Hrule H) as (merged & Hm & Hcfg).
  destruct (mergeConfigs_at _ _ _ _ _ Hnd Hm Hrules) as (nv & Hstep & Hnv).
  change (get "rules" (baseConfig projectType useStrict packageJson))
    with (Some (VObj (baseRules useStrict))) in Hstep.
  rewrite mergeField_obj in Hstep. simpl or_default in Hstep.
  destruct (mergeConfigs (VObj (baseRules useStrict)) theirs) as [sub|] eqn:Hsub;
    simpl in Hstep; [|discriminate].
  injection Hstep as <-.
  rewrite Hcfg by now rewrite Hnv.
  unfold rule_of. rewrite Hnv. cbn [member].
  destruct (mergeConfigs_at _ _ _ _ _ Hnd' Hsub Hv) as (nv & Hstep & ->).
  rewrite Hbase, mergeField_arr in Hstep.
  assert (severity <> "") as Hne.
  { intros ->. kept_cases Hrule; destruct useStrict; discriminate. }
  apply String.eqb_neq in Hne.
  cbn [or_default truthy] in Hstep. rewrite Hne in Hstep.
  simpl in Hstep. congruence.
Qed.

(** An instance: [no-console] with options, in a nodejs project. *)
Lemma existing_rule_array_spread_witness :
  exists cfg,
    generateConfig "nodejs" false false false []
      [("rules", VObj [("no-console",
                        VArr [VStr "error";
                              VObj [("allow", VArr [VStr "warn"])]])])]
    = Ok cfg /\
    rule_of cfg "no-console"
    = Some (VArr [VStr "w"; VStr "a"; VStr "r"; VStr "n"; VStr "error";
                  VObj [("allow", VArr [VStr "warn"])]]).
Proof.
  eexists. split; [reflexivity|].
  refine (existing_rule_array_spread "nodejs" "no-console" false false false []
            [("rules", VObj [("no-console",
                              VArr [VStr "error";
                                    VObj [("allow", VArr [VStr "warn"])]])])]
            _
            [("no-console",
              VArr [VStr "error"; VObj [("allow", VArr [VStr "warn"])]])]
            [VStr "error"; VObj [("allow", VArr [VStr "warn"])]]
            "warn" _ _ _ _ _ _ _ _).
  - left. reflexivity.
  - repeat constructor; simpl; intuition discriminate.
  - reflexivity.
  - repeat constructor; simpl; intuition discriminate.
  - reflexivity.
  - repeat constructor; simpl; intuition discriminate.
  - reflexivity.
  - reflexivity.
Defined.

(** For svelte the rule function has the last word on [no-unused-vars]: it
    is ['off'] in every generated document, whatever the strictness flag and
    the existing configuration say, and [svelte/no-unused-vars] is
    ['error']. *)
Theorem svelte_unused_vars (useTypeScript useStrict usePrettier : bool)
    (packageJson existingConfig cfg : props) :
  generateConfig "svelte" useTypeScript useStrict usePrettier packageJson
                 existingConfig = Ok cfg ->
  rule_of cfg "no-unused-vars" = Some (VStr "off") /\
  rule_of cfg "svelte/no-unused-vars" = Some (VStr "error").
Proof.
  intros H. unfold generateConfig in H.
  destruct (mergeConfigs (VObj (baseConfig "svelte" useStrict packageJson))
                         existingConfig) as [merged|]; [|discriminate].
  cbn [bind] in H.
  change (configureProject "svelte" useTypeScript merged)
    with (configureSvelte merged None) in H.
  unfold configureSvelte in H. cbn [bind] in H.
  match type of H with
  | configureOptions _ _ _ ?c = _ =>
      assert (holds_object (get "rules" c)) as Hobj
        by apply extend_object_holds;
      assert (rule_of c "no-unused-vars" = Some (VStr "off")) as Hoff
        by (now rewrite rule_of_extend_object);
      assert (rule_of c "svelte/no-unused-vars" = Some (VStr "error")) as Herr
        by (now rewrite rule_of_extend_object);
      destruct (configureOptions_rule "svelte" "no-unused-vars" useTypeScript
                  usePrettier c cfg eq_refl eq_refl H Hobj) as [E1 _];
      destruct (configureOptions_rule "svelte" "svelte/no-unused-vars"
                  useTypeScript usePrettier c cfg eq_refl eq_refl H Hobj)
        as [E2 _]
  end.
  split; congruence.
Qed.

(** An instance: strict mode asked for a svelte project. *)
Lemma svelte_unused_vars_witness :
  exists cfg,
    generateConfig "svelte" false true false [] [] = Ok cfg /\
    rule_of cfg "no-unused-vars" = Some (VStr "off") /\
    rule_of cfg "svelte/no-unused-vars" = Some (VStr "error").
Proof.
  eexists. split; [reflexivity|].
  apply (svelte_unused_vars false true false [] []). reflexivity.
Defined.

(** ** [generateConfig]: [extends] and [plugins] *)

(** With the formatter, [plugin:prettier/recommended] is the last element
    of [extends], after everything the existing configuration and the other
    steps contributed, and [prettier/prettier] is an error. *)
Theorem prettier_comes_last (projectType : string)
    (useTypeScript useStrict : bool)
    (packageJson existingConfig cfg : props) :
  generateConfig projectType useTypeScript useStrict true packageJson
                 existingConfig = Ok cfg ->
  (exists before,
      get "extends" cfg
      = Some (VArr (before ++ [VStr "plugin:prettier/recommended"]))) /\
  rule_of cfg "prettier/prettier" = Some (VStr "error").
Proof.
  intros H. unfold generateConfig in H.
  destruct (mergeConfigs (VObj (baseConfig projectType useStrict packageJson))
                         existingConfig) as [merged|]; [|discriminate].
  cbn [bind] in H.
  destruct (configureProject projectType useTypeScript merged) as [c1|];
    [|discriminate].
  cbn [bind] in H. unfold configureOptions in H.
  match type of H with
  | bind ?m _ = _ => destruct m as [c2|]; [|discriminate]
  end.
  cbn [bind] in H. unfold configurePrettier, append_to in H.
  destruct (spread_array (or_default (get "extends" c2) (VArr []))) as [mine|];
    [|discriminate].
  cbn [bind] in H. injection H as <-. split.
  - exists mine. unfold extend_object. now fields.
  - now rewrite rule_of_extend_object.
Qed.

(** An instance: a vue project over an existing configuration that already
    extends the formatter's preset. *)
Lemma prettier_comes_last_witness :
  exists cfg,
    generateConfig "vue" false false true []
      [("extends", VArr [VStr "plugin:prettier/recommended"; VStr "airbnb"])]
    = Ok cfg /\
    (exists before,
        get "extends" cfg
        = Some (VArr (before ++ [VStr "plugin:prettier/recommended"]))) /\
    rule_of cfg "prettier/prettier" = Some (VStr "error").
Proof.
  eexists. split; [reflexivity|].
  apply (prettier_comes_last "vue" false false []
           [("extends", VArr [VStr "plugin:prettier/recommended"; VStr "airbnb"])]).
  reflexivity.
Defined.

Lemma configureOptions_plugins (projectType : string)
    (useTypeScript usePrettier : bool) (config config' : props)
    (plugins : list value) :
  configureOptions projectType useTypeScript usePrettier config = Ok config' ->
  get "plugins" config = Some (VArr plugins) ->
  get "plugins" config'
  = Some (VArr (plugins ++
                if useTypeScript && negb (String.eqb projectType "nextjs")
                then strs ["@typescript-eslint"] else [])).
Proof.
  unfold configureOptions. intros H Hp.
  destruct (useTypeScript && negb (String.eqb projectType "nextjs")).
  - unfold configureTypeScript in H.
    rewrite append_to_seq in H by (fields; rewrite Hp; exact I).
    cbn [bind] in H.
    match type of H with
    | context [append_to "extends" ?e ?c] =>
        destruct (append_to "extends" e c) as [c2|] eqn:H2;
        cbn [bind] in H; [|discriminate H]
    end.
    assert (get "plugins" c2 = Some (VArr (plugins ++ strs ["@typescript-eslint"])))
      as Hp2.
    { rewrite (append_to_get_other "extends" "plugins" _ _ _ eq_refl H2).
      fields. rewrite Hp. reflexivity. }
    destruct usePrettier.
    + unfold configurePrettier in H. step_append H c3 H3. injection H as <-.
      unfold extend_object. rewrite get_set_other by reflexivity.
      rewrite (append_to_get_other "extends" "plugins" _ _ _ eq_refl H3).
      unfold extend_object. rewrite get_set_other by reflexivity. exact Hp2.
    + injection H as <-. unfold extend_object.
      rewrite get_set_other by reflexivity. exact Hp2.
  - cbn [bind] in H. rewrite app_nil_r. destruct usePrettier.
    + unfold configurePrettier in H. step_append H c3 H3. injection H as <-.
      unfold extend_object. rewrite get_set_other by reflexivity.
      now rewrite (append_to_get_other "extends" "plugins" _ _ _ eq_refl H3).
    + now injection H as <-.
Qed.

(** For svelte, what the existing configuration holds in [extends] and
    [plugins] never reaches the generated document: whenever the merge
    returns, [generateConfig] returns, and the two fields hold what the
    svelte rule function assigns and the later steps append. *)
Theorem svelte_overwrites_existing (useTypeScript useStrict usePrettier : bool)
    (packageJson existingConfig : props) :
  match mergeConfigs (VObj (baseConfig "svelte" useStrict packageJson))
                     existingConfig with
  | Ok _ =>
      exists cfg,
        generateConfig "svelte" useTypeScript useStrict usePrettier packageJson
                       existingConfig = Ok cfg /\
        get "extends" cfg
        = Some (VArr (strs ["eslint:recommended"; "plugin:svelte/recommended"]
                      ++ optionExtends "svelte" useTypeScript usePrettier)) /\
        get "plugins" cfg
        = Some (VArr (strs ["svelte"] ++
                      if useTypeScript then strs ["@typescript-eslint"] else []))
  | Throw msg =>
      generateConfig "svelte" useTypeScript useStrict usePrettier packageJson
                     existingConfig = Throw msg
  end.
Proof.
  destruct (mergeConfigs (VObj (baseConfig "svelte" useStrict packageJson))
                         existingConfig) as [merged|msg] eqn:Hm.
  - assert (exists cfg,
               generateConfig "svelte" useTypeScript useStrict usePrettier
                              packageJson existingConfig = Ok cfg /\
               get "plugins" cfg
               = Some (VArr (strs ["svelte"] ++
                             if useTypeScript then strs ["@typescript-eslint"]
                             else []))) as (cfg & Hcfg & Hplugins).
    { unfold generateConfig. rewrite Hm. cbn [bind].
      change (configureProject "svelte" useTypeScript merged)
        with (configureSvelte merged None).
      destruct (configureSvelte_one_argument merged)
        as (c1 & -> & Hext & Hplug & _).
      cbn [bind].
      destruct (configureOptions "svelte" useTypeScript usePrettier c1)
        as [cfg|msg] eqn:Hopt.
      - exists cfg. split; [reflexivity|].
        rewrite (configureOptions_plugins _ _ _ _ _ _ Hopt Hplug).
        change (negb (String.eqb "svelte" "nextjs")) with true.
        now rewrite andb_true_r.
      - exfalso. unfold configureOptions, configureTypeScript, configurePrettier,
          append_to, extend_object in Hopt.
        destruct useTypeScript, usePrettier;
          cbn [andb negb] in Hopt;
          change (String.eqb "svelte" "nextjs") with false in Hopt;
          cbn [negb bind] in Hopt;
          repeat (first [ rewrite get_set_same in Hopt
                        | rewrite get_set_other in Hopt by reflexivity
                        | rewrite Hext in Hopt
                        | rewrite Hplug in Hopt ];
                  cbn [or_default truthy spread_array bind] in Hopt);
          discriminate. }
    exists cfg. split; [exact Hcfg|]. split; [|exact Hplugins].
    exact (svelte_extends _ _ _ _ _ _ Hcfg).
  - unfold generateConfig. now rewrite Hm.
Qed.


Lemma append_to_spread (key : string) (extra mine : list value)
    (config config' : props) :
  append_to key extra config = Ok config' ->
  spread_array (or_default (get key config) (VArr [])) = Ok mine ->
  get key config' = Some (VArr (mine ++ extra)).
Proof.
  intros H Hmine. unfold append_to in H. rewrite Hmine in H.
  cbn [bind] in H. injection H as <-. apply get_set_same.
Qed.

(** The five rule functions append to whatever [config.extends || []]
    spreads to. *)
Lemma configureProject_extends_spread (projectType : string)
    (useTypeScript : bool) (config config' : props) (mine : list value) :
  In projectType ["nextjs"; "react"; "nodejs"; "angular"; "vue"] ->
  configureProject projectType useTypeScript config = Ok config' ->
  spread_array (or_default (get "extends" config) (VArr [])) = Ok mine ->
  get "extends" config' = Some (VArr (mine ++ typeExtends projectType)).
Proof.
  intros Hin H Hmine. simpl in Hin.
  destruct Hin as [<-|[<-|[<-|[<-|[<-|[]]]]]];
    unfold configureProject in H; simpl String.eqb in H; cbv iota in H;
    unfold typeExtends; simpl String.eqb; cbv iota.
  - now apply (append_to_spread "extends" _ mine config).
  - unfold configureReact in H.
    step_append H c1 H1. step_append H c2 H2.
    rewrite <- (append_to_spread "extends" _ mine _ _ H1 Hmine).
    rewrite <- (append_to_other "plugins" _ _ _ eq_refl H2).
    destruct useTypeScript.
    + rewrite (set_member_other "parserOptions" _ _ _ _ eq_refl H).
      now rewrite !extend_object_other.
    + injection H as <-. now rewrite !extend_object_other.
  - unfold configureNodejs in H.
    step_append H c1 H1. step_append H c2 H2.
    rewrite <- (append_to_spread "extends" _ mine _ _ H1 Hmine).
    rewrite <- (append_to_other "plugins" _ _ _ eq_refl H2).
    injection H as <-. now rewrite extend_object_other.
  - unfold configureAngular in H.
    step_append H c1 H1.
    rewrite <- (append_to_spread "extends" _ mine _ _ H1 Hmine).
    now apply (append_to_other "plugins" (strs ["@angular-eslint"]) c1).
  - unfold configureVue in H.
    step_append H c1 H1. step_append H c2 H2.
    rewrite <- (append_to_spread "extends" _ mine _ _ H1 Hmine).
    rewrite <- (append_to_other "plugins" _ _ _ eq_refl H2).
    injection H as <-. now apply get_set_other.
Qed.

Lemma chars_spread (s : string) :
  spread_array (or_default (Some (VStr s)) (VArr [])) = Ok (chars s).
Proof.
  simpl. destruct (String.eqb s "") eqn:E; simpl; auto.
  apply String.eqb_eq in E. now subst.
Qed.

(** [extends] in its string form.  Lint configurations may give [extends]
    as one string; the merge keeps it as a scalar and the rule functions of
    the five types other than svelte then spread it: the generated
    [extends] begins with the characters of that string, one element
    each, repetitions included. *)
Theorem string_extends_is_spread (projectType : string)
    (useTypeScript useStrict usePrettier : bool)
    (packageJson existingConfig cfg : props) (preset : string) :
  In projectType ["nextjs"; "react"; "nodejs"; "angular"; "vue"] ->
  NoDup (keys existingConfig) ->
  get "extends" existingConfig = Some (VStr preset) ->
  generateConfig projectType useTypeScript useStrict usePrettier packageJson
                 existingConfig = Ok cfg ->
  get "extends" cfg
  = Some (VArr (chars preset
                ++ typeExtends projectType
                ++ optionExtends projectType useTypeScript usePrettier)).
Proof.
  intros Hin Hnd He H. unfold generateConfig in H.
  destruct (mergeConfigs (VObj (baseConfig projectType useStrict packageJson))
                         existingConfig) as [merged|] eqn:Hm; [|discriminate].
  cbn [bind] in H.
  destruct (configureProject projectType useTypeScript merged) as [c1|] eqn:H1;
    [|discriminate].
  cbn [bind] in H.
  destruct (mergeConfigs_at _ _ _ _ _ Hnd Hm He) as (nv & Hstep & Hnv).
  simpl in Hstep. injection Hstep as <-.
  assert (spread_array (or_default (get "extends" merged) (VArr []))
          = Ok (chars preset)) as Hmine
    by (rewrite Hnv; apply chars_spread).
  pose proof (configureProject_extends_spread _ _ _ _ _ Hin H1 Hmine) as Hc1.
  rewrite (configureOptions_extends _ _ _ _ _ _ H Hc1).
  now rewrite <- app_assoc.
Qed.

(** An instance: [{ "extends": "airbnb" }] in a nodejs project. *)
Lemma string_extends_is_spread_witness :
  exists cfg,
    generateConfig "nodejs" false false false []
                   [("extends", VStr "airbnb")] = Ok cfg /\
    get "extends" cfg
    = Some (VArr [VStr "a"; VStr "i"; VStr "r"; VStr "b"; VStr "n"; VStr "b";
                  VStr "plugin:node/recommended"]).
Proof.
  eexists. split; [reflexivity|].
  apply (string_extends_is_spread "nodejs" false false false []
           [("extends", VStr "airbnb")] _ "airbnb").
  - simpl. tauto.
  - repeat constructor; simpl; intuition discriminate.
  - reflexivity.
  - reflexivity.
Defined.

(** ** The prompts *)

Import userInteraction.

Lemma prompt_split (validator : string -> bool) (input : list string) :
  forall warnings answer rest,
    prompt validator input = (warnings, Some (answer, rest)) ->
    validator answer = true /\
    exists rejected,
      input = rejected ++ answer :: rest /\
      length rejected = warnings /\
      forallb (fun line => negb (validator line)) rejected = true.
Proof.
  induction input as [|line input IH]; intros warnings answer rest H;
    [discriminate|].
  simpl in H. destruct (validator line) eqn:E.
  - injection H as <- <- <-. split; [exact E|]. now exists [].
  - destruct (prompt validator input) as [n r] eqn:Hp.
    injection H as <- ->.
    destruct (IH n answer rest eq_refl) as (Hv & rejected & -> & Hlen & Hall).
    split; [exact Hv|]. exists (line :: rejected). simpl.
    rewrite E, Hlen, Hall. auto.
Qed.

(** [prompt] returns once a line passes the validator, and returns the
    first such line: on an input whose lines are rejected up to an accepted
    one, it warns once for each rejected line, returns the accepted line and
    leaves the lines after it unread.  While every line is rejected it warns
    for each and goes on asking. *)
Theorem prompt_first_valid (validator : string -> bool) :
  (forall rejected answer rest,
      forallb (fun line => negb (validator line)) rejected = true ->
      validator answer = true ->
      prompt validator (rejected ++ answer :: rest)
      = (length rejected, Some (answer, rest))) /\
  (forall rejected,
      forallb (fun line => negb (validator line)) rejected = true ->
      prompt validator rejected = (length rejected, None)).
Proof.
  split.
  - intros rejected answer rest Hall Hv.
    induction rejected as [|line rejected IH]; simpl.
    + now rewrite Hv.
    + simpl in Hall. apply andb_true_iff in Hall as [Hline Hall].
      apply negb_true_iff in Hline. rewrite Hline, (IH Hall). reflexivity.
  - intros rejected Hall.
    induction rejected as [|line rejected IH]; simpl; [reflexivity|].
    simpl in Hall. apply andb_true_iff in Hall as [Hline Hall].
    apply negb_true_iff in Hline. rewrite Hline, (IH Hall). reflexivity.
Qed.

(** An instance: two rejected lines before the project type. *)
Lemma prompt_first_valid_witness :
  prompt validProjectType (["python"; ""] ++ "vue" :: ["y"])
  = (2%nat, Some ("vue", ["y"])) /\
  prompt validProjectType ["python"; ""] = (2%nat, None).
Proof.
  split.
  - apply (proj1 (prompt_first_valid validProjectType) ["python"; ""] "vue" ["y"]);
      reflexivity.
  - apply (proj2 (prompt_first_valid validProjectType) ["python"; ""]);
      reflexivity.
Defined.

Lemma toLowerCase_empty (s : string) : toLowerCase s = "" -> s = "".
Proof. destruct s; [reflexivity | discriminate]. Qed.

Lemma lowerChar_y (c : ascii) :
  lowerChar c = "y"%char -> c = "y"%char \/ c = "Y"%char.
Proof.
  destruct c as [[] [] [] [] [] [] [] []]; vm_compute; intros H;
    first [ discriminate H | now left | now right ].
Qed.

(** A yes-or-no question is answered yes by [y] and [Y] alone: any other
    line, [yes] among them, counts as no. *)
Theorem only_y_means_yes (answer : string) :
  isYes answer = true <-> answer = "y" \/ answer = "Y".
Proof.
  split.
  - unfold isYes. destruct answer as [|c rest]; [discriminate|].
    cbn [toLowerCase]. intros H. apply String.eqb_eq in H.
    injection H as Hc Hrest. apply toLowerCase_empty in Hrest. subst rest.
    destruct (lowerChar_y c Hc) as [-> | ->]; auto.
  - intros [-> | ->]; reflexivity.
Qed.

Lemma project_types_lower (projectType : string) :
  In projectType PROJECT_TYPES -> toLowerCase projectType = projectType.
Proof.
  simpl. intros H.
  repeat (destruct H as [<-|H]; [reflexivity|]). contradiction.
Qed.

Lemma lookup_outside {A : Type} (key : string) (table : list (string * A)) :
  ~ In key (map fst table) -> lookup key table = None.
Proof.
  induction table as [|[k a] rest IH]; simpl; auto.
  intros H. destruct (String.eqb k key) eqn:E.
  - apply String.eqb_eq in E. tauto.
  - apply IH. tauto.
Qed.

(** The type question accepts an answer in any letter case but returns it as
    typed, and the tables are keyed in lower case: an accepted answer that is
    not all lower case ends the run at once, with nothing installed or
    written. *)
Theorem capitalised_type_aborts (input rest : list string) (answers : options)
    (env : environment) :
  getProjectOptions input = Some (answers, rest) ->
  projectType answers <> toLowerCase (projectType answers) ->
  validProjectType (projectType answers) = true /\
  setupProject answers env = [Exit 1 "TypeError: undefined is not iterable"].
Proof.
  intros Hopt Hcase.
  assert (validProjectType (projectType answers) = true) as Hvalid.
  { unfold getProjectOptions in Hopt.
    destruct (prompt validProjectType input) as [n [[pt more]|]] eqn:Hp;
      simpl in Hopt; [|discriminate].
    destruct (prompt_split _ _ _ _ _ Hp) as [Hv _].
    destruct more as [|a [|b [|c [|d more]]]]; try discriminate.
    injection Hopt as <- _. exact Hv. }
  split; [exact Hvalid|].
  assert (~ In (projectType answers) PROJECT_TYPES) as Hout.
  { intros Hin. apply Hcase. symmetry. now apply project_types_lower. }
  unfold setupProject, packageManager.removeConflictingDependencies.
  rewrite (lookup_outside _ packageManager.conflictingDependencies Hout).
  assert (String.eqb (projectType answers) "svelte" = false) as ->.
  { apply String.eqb_neq. intros E. apply Hout. rewrite E. simpl. tauto. }
  reflexivity.
Qed.

(** An instance: [React] typed with a capital. *)
Lemma capitalised_type_aborts_witness :
  validProjectType "React" = true /\
  setupProject (mkOptions "React" true false true true)
               (mkEnvironment (Ok ["package.json"]) None false [] [])
  = [Exit 1 "TypeError: undefined is not iterable"].
Proof.
  apply (capitalised_type_aborts ["React"; "y"; "n"; "y"; "y"] []
           (mkOptions "React" true false true true)
           (mkEnvironment (Ok ["package.json"]) None false [] [])).
  - reflexivity.
  - discriminate.
Defined.

(** ** The dependency catalog *)

(** [getProjectDependencies] returns a list exactly for the six project
    types, and throws for any other; a list it returns starts with the
    lint tool itself, whatever the options. *)
Theorem getProjectDependencies_defined (projectType : string)
    (useTypeScript usePrettier : bool) :
  (In projectType PROJECT_TYPES ->
   exists rest,
     dependencyManager.getProjectDependencies projectType useTypeScript
                                              usePrettier
     = Ok ("eslint@^8.56.0" :: rest)) /\
  (~ In projectType PROJECT_TYPES ->
   dependencyManager.getProjectDependencies projectType useTypeScript
                                            usePrettier
   = Throw "TypeError: undefined is not iterable").
Proof.
  split.
  - simpl. intros H.
    repeat (destruct H as [<-|H];
            [destruct useTypeScript, usePrettier; eexists; reflexivity|]).
    contradiction.
  - intros H. unfold dependencyManager.getProjectDependencies.
    now rewrite (lookup_outside _ dependencyManager.typeSpecificDependencies H).
Qed.

(** An instance of each case: svelte without the formatter, and a type the
    catalog does not know. *)
Lemma getProjectDependencies_defined_witness :
  (exists rest,
      dependencyManager.getProjectDependencies "svelte" true false
      = Ok ("eslint@^8.56.0" :: rest)) /\
  dependencyManager.getProjectDependencies "solid" true false
  = Throw "TypeError: undefined is not iterable".
Proof.
  split.
  - apply (getProjectDependencies_defined "svelte" true false).
    simpl. tauto.
  - apply (getProjectDependencies_defined "solid" true false).
    simpl. intuition discriminate.
Defined.

(** The TypeScript packages are in the list exactly when TypeScript is used
    and the type is not nextjs. *)
Theorem typescript_dependencies_iff (projectType : string)
    (useTypeScript usePrettier : bool) (deps : list string) :
  dependencyManager.getProjectDependencies projectType useTypeScript usePrettier
  = Ok deps ->
  forall dep,
    In dep dependencyManager.typescriptDependencies ->
    (In dep deps <-> useTypeScript = true /\ projectType <> "nextjs").
Proof.
  unfold dependencyManager.getProjectDependencies.
  destruct (lookup projectType dependencyManager.typeSpecificDependencies)
    as [specific|] eqn:Hspec; [|discriminate].
  assert (In projectType PROJECT_TYPES) as Hin.
  { destruct (in_dec string_dec projectType PROJECT_TYPES) as [|Hout]; auto.
    rewrite (lookup_outside _ dependencyManager.typeSpecificDependencies Hout)
      in Hspec. discriminate. }
  intros H dep Hdep. injection H as <-.
  simpl in Hin, Hdep.
  repeat (destruct Hin as [<-|Hin];
          [ injection Hspec as <-;
            destruct useTypeScript, usePrettier;
            repeat (destruct Hdep as [<-|Hdep];
                    [ vm_compute; intuition (try discriminate; try congruence) |]);
            contradiction |]).
  contradiction.
Qed.

(** An instance: nextjs with TypeScript gets none of them. *)
Lemma typescript_dependencies_iff_witness :
  In "@typescript-eslint/parser@^7.1.0"
     ["eslint@^8.56.0"; "prettier@^3.2.5"; "eslint-config-prettier@^9.1.0";
      "eslint-plugin-prettier@^5.1.3"; "eslint-config-next@latest"]
  <-> true = true /\ "nextjs" <> "nextjs".
Proof.
  apply (typescript_dependencies_iff "nextjs" true true).
  - reflexivity.
  - simpl. tauto.
Defined.

(** The package names of the list are pairwise distinct, except for svelte
    with the formatter: its list names [eslint-config-prettier] twice, with
    two version ranges. *)
Theorem dependency_names_distinct (projectType : string)
    (useTypeScript usePrettier : bool) (deps : list string) :
  dependencyManager.getProjectDependencies projectType useTypeScript usePrettier
  = Ok deps ->
  nodupb (map specifierName deps)
  = negb (String.eqb projectType "svelte" && usePrettier).
Proof.
  unfold dependencyManager.getProjectDependencies.
  destruct (lookup projectType dependencyManager.typeSpecificDependencies)
    as [specific|] eqn:Hspec; [|discriminate].
  assert (In projectType PROJECT_TYPES) as Hin.
  { destruct (in_dec string_dec projectType PROJECT_TYPES) as [|Hout]; auto.
    rewrite (lookup_outside _ dependencyManager.typeSpecificDependencies Hout)
      in Hspec. discriminate. }
  intros H. injection H as <-. simpl in Hin.
  repeat (destruct Hin as [<-|Hin];
          [ injection Hspec as <-;
            destruct useTypeScript, usePrettier; reflexivity |]).
  contradiction.
Qed.

(** An instance: the svelte list with the formatter. *)
Lemma dependency_names_distinct_witness :
  nodupb (map specifierName
            ["eslint@^8.56.0"; "prettier@^3.2.5"; "eslint-config-prettier@^9.1.0";
             "eslint-plugin-prettier@^5.1.3"; "eslint-plugin-svelte@latest";
             "svelte-eslint-parser@latest"; "prettier-plugin-svelte@latest";
             "eslint-config-prettier@latest"; "svelte-check@latest"])
  = negb (String.eqb "svelte" "svelte" && true).
Proof.
  apply (dependency_names_distinct "svelte" false true). reflexivity.
Defined.

(** ** Runs of [setupProject] *)

Lemma uninstalls_only (projectType : string) (uninstalls : list event)
    (p : event -> bool) :
  (forall dep, p (Uninstall dep) = true) ->
  packageManager.removeConflictingDependencies projectType = Ok uninstalls ->
  forallb p uninstalls = true.
Proof.
  unfold packageManager.removeConflictingDependencies. intros Hp H.
  destruct (lookup projectType packageManager.conflictingDependencies);
    [|discriminate].
  injection H as <-. apply forallb_forall. intros e He.
  apply in_map_iff in He as (dep & <- & _). apply Hp.
Qed.

Lemma filtered_dependencies (projectType : string) (useTypeScript : bool)
    (deps : list string) :
  dependencyManager.getProjectDependencies projectType useTypeScript false
  = Ok deps ->
  existsb (fun dep => includes dep "prettier") deps = false.
Proof.
  unfold dependencyManager.getProjectDependencies.
  destruct (lookup projectType dependencyManager.typeSpecificDependencies);
    [|discriminate].
  cbn [negb]. intros H. injection H as <-.
  destruct (existsb _ _) eqn:E; auto.
  apply existsb_exists in E as (dep & Hin & Hdep).
  apply filter_In in Hin as [_ Hneg]. now rewrite Hdep in Hneg.
Qed.

(** Without the formatter a run installs no package that has [prettier] in
    its specifier and writes neither [.prettierrc] nor [.prettierignore],
    whatever the type, the other options and the project hold. *)
Theorem without_formatter (answers : options) (env : environment) :
  usePrettier answers = false ->
  forallb (fun e => negb (formatter_artefact e)) (setupProject answers env)
  = true.
Proof.
  intros Hp. unfold setupProject. rewrite Hp.
  rewrite forallb_app. apply andb_true_iff. split.
  { now destruct (String.eqb (projectType answers) "svelte"
                  && effectiveTypeScript answers env). }
  destruct (packageManager.removeConflictingDependencies (projectType answers))
    as [uninstalls|] eqn:Hun; [|reflexivity].
  rewrite forallb_app. apply andb_true_iff. split.
  { now apply (uninstalls_only (projectType answers)). }
  destruct (dependencyManager.getProjectDependencies (projectType answers)
              (effectiveTypeScript answers env) false) as [deps|] eqn:Hdeps;
    [|reflexivity].
  cbn [forallb formatter_artefact].
  rewrite (filtered_dependencies _ _ _ Hdeps). cbn [negb andb].
  destruct (generateConfig (projectType answers)
              (effectiveTypeScript answers env) (useStrict answers) false
              (packageJson env) (existingConfigOf env)); [|reflexivity].
  now destruct (useHusky answers).
Qed.

(** An instance: an angular project without the formatter, with the hook
    manager. *)
Lemma without_formatter_witness :
  forallb (fun e => negb (formatter_artefact e))
    (setupProject (mkOptions "angular" true true false false)
                  (mkEnvironment (Ok []) None false [] []))
  = true.
Proof.
  apply without_formatter. reflexivity.
Defined.

(** With the hook manager the staged-file map written to [package.json]
    runs [prettier --write] on the second pattern whether or not the
    formatter was chosen. *)
Theorem lint_staged_calls_formatter (answers : options) (env : environment)
    (content : value) :
  useHusky answers = true ->
  In (WriteJson "package.json" content) (setupProject answers env) ->
  exists doc staged,
    content = VObj doc /\
    get "lint-staged" doc = Some (VObj staged) /\
    get "*.{json,md,css,html,svelte}" staged
    = Some (VArr [VStr "prettier --write"]).
Proof.
  intros Hh Hin. unfold setupProject in Hin. rewrite Hh in Hin.
  assert (forall l, forallb (fun e => match e with
                                      | WriteJson path _ =>
                                          negb (String.eqb path "package.json")
                                      | _ => true
                                      end) l = true ->
                    ~ In (WriteJson "package.json" content) l) as Hnot.
  { intros l Hl Hc. rewrite forallb_forall in Hl.
    specialize (Hl _ Hc). discriminate. }
  apply in_app_iff in Hin as [Hin|Hin].
  { exfalso. revert Hin. apply Hnot.
    now destruct (String.eqb (projectType answers) "svelte"
                  && effectiveTypeScript answers env). }
  destruct (packageManager.removeConflictingDependencies (projectType answers))
    as [uninstalls|] eqn:Hun.
  2:{ destruct Hin as [Hin|[]]. discriminate. }
  apply in_app_iff in Hin as [Hin|Hin].
  { exfalso. revert Hin. apply Hnot.
    now apply (uninstalls_only (projectType answers)). }
  destruct (dependencyManager.getProjectDependencies _ _ _) as [deps|].
  2:{ destruct Hin as [Hin|[]]. discriminate. }
  destruct Hin as [Hin|Hin]; [discriminate|].
  destruct (generateConfig _ _ _ _ _ _) as [cfg|].
  2:{ destruct Hin as [Hin|[]]. discriminate. }
  assert (WriteJson "package.json" content
          = fileSystem.updatePackageJson (manifest env)
              (packageJsonUpdates (projectType answers) (usePrettier answers)
                 true (packageJson env))) as Hlast.
  { destruct (usePrettier answers); simpl in Hin;
      repeat (destruct Hin as [Hin|Hin]; [try discriminate Hin; auto|]);
      contradiction. }
  unfold fileSystem.updatePackageJson in Hlast. injection Hlast as ->.
  eexists. eexists. split; [reflexivity|].
  rewrite get_set_same. split; reflexivity.
Qed.

(** An instance: a vue project with the hook manager and without the
    formatter. *)
Lemma lint_staged_calls_formatter_witness :
  exists doc staged,
    VObj [("scripts", VObj [("lint", VStr "eslint .");
                            ("lint:fix", VStr "eslint . --fix")]);
          ("lint-staged",
           VObj [("*.{js,jsx,ts,tsx,svelte}", VArr [VStr "eslint --fix"]);
                 ("*.{json,md,css,html,svelte}", VArr [VStr "prettier --write"])])]
    = VObj doc /\
    get "lint-staged" doc = Some (VObj staged) /\
    get "*.{json,md,css,html,svelte}" staged
    = Some (VArr [VStr "prettier --write"]).
Proof.
  apply (lint_staged_calls_formatter
           (mkOptions "vue" false true false false)
           (mkEnvironment (Ok []) None false [] [])).
  - reflexivity.
  - vm_compute. tauto.
Defined.

(** An error of the engine is raised before any file of the lint tool or the
    formatter is written.  When the project type is no key of the tables or
    [generateConfig] throws, the run ends with the exit with code 1, no exit
    occurs before it, and nothing was written before it but, possibly,
    [tsconfig.json]; the dependencies may already be installed. *)
Theorem engine_error_writes_nothing (answers : options) (env : environment) :
  engine_throws answers env = true ->
  exists before msg,
    setupProject answers env = before ++ [Exit 1 msg] /\
    forallb (fun e => negb (is_exit e)) before = true /\
    forallb writes_at_most_tsconfig before = true.
Proof.
  unfold engine_throws, setupProject. intros Hthrows.
  set (ts := if String.eqb (projectType answers) "svelte"
                && effectiveTypeScript answers env
             then [createSvelteTsConfig] else []).
  assert (forallb (fun e => negb (is_exit e)) ts = true /\
          forallb writes_at_most_tsconfig ts = true) as [Hts1 Hts2].
  { unfold ts. now destruct (String.eqb (projectType answers) "svelte"
                             && effectiveTypeScript answers env). }
  destruct (packageManager.removeConflictingDependencies (projectType answers))
    as [uninstalls|msg] eqn:Hun.
  2:{ exists ts, msg. repeat split; auto. }
  pose proof (uninstalls_only _ _ (fun e => negb (is_exit e))
                (fun _ => eq_refl) Hun) as Hu1.
  pose proof (uninstalls_only _ _ writes_at_most_tsconfig
                (fun _ => eq_refl) Hun) as Hu2.
  destruct (dependencyManager.getProjectDependencies _ _ _) as [deps|msg].
  2:{ exists (ts ++ uninstalls), msg.
      rewrite <- app_assoc, !forallb_app, Hts1, Hts2, Hu1, Hu2.
      repeat split. }
  destruct (generateConfig _ _ _ _ _ _) as [cfg|msg]; [discriminate|].
  exists (ts ++ uninstalls ++ [Install deps]), msg.
  rewrite <- !app_assoc, !forallb_app, Hts1, Hts2, Hu1, Hu2.
  repeat split.
Qed.

(** An instance: an existing configuration that gives [root] as a sequence,
    on which the merge throws; the dependencies are installed, nothing is
    written. *)
Lemma engine_error_writes_nothing_witness :
  exists before msg,
    setupProject
      (mkOptions "react" false false true true)
      (mkEnvironment (Ok []) (Some [("root", VArr [VStr "x"])]) false [] [])
    = before ++ [Exit 1 msg] /\
    forallb (fun e => negb (is_exit e)) before = true /\
    forallb writes_at_most_tsconfig before = true.
Proof.
  apply (engine_error_writes_nothing
           (mkOptions "react" false false true true)
           (mkEnvironment (Ok []) (Some [("root", VArr [VStr "x"])]) false [] [])).
  reflexivity.
Defined.

(** Detection against the answer.  For svelte, when the listing of the
    working directory fails, or holds no [tsconfig.json] and no name ending
    in [.ts] or [.svelte], TypeScript is off even if the answer was yes: the
    run writes no [tsconfig.json] and installs none of the TypeScript
    packages. *)
Theorem svelte_without_detection (answers : options) (env : environment) :
  projectType answers = "svelte" ->
  (forall files file,
      listing env = Ok files -> In file files ->
      String.eqb file "tsconfig.json" = false /\
      endsWith file ".ts" = false /\ endsWith file ".svelte" = false) ->
  effectiveTypeScript answers env = false /\
  forallb (fun e => negb (writes_tsconfig e) && negb (installs_typescript e))
          (setupProject answers env) = true.
Proof.
  intros Hpt Hfiles.
  assert (effectiveTypeScript answers env = false) as Hts.
  { unfold effectiveTypeScript. rewrite Hpt.
    change (String.eqb "svelte" "svelte") with true. cbv iota.
    unfold isSvelteUsingTypeScript.
    destruct (listing env) as [files|] eqn:Hls; [|reflexivity].
    destruct (existsb _ files) eqn:E; [|reflexivity].
    apply existsb_exists in E as (file & Hin & Hm).
    destruct (Hfiles files file eq_refl Hin) as (E1 & E2 & E3).
    now rewrite E1, E2, E3 in Hm. }
  split; [exact Hts|].
  unfold setupProject. rewrite Hts, Hpt.
  change (String.eqb "svelte" "svelte" && false) with false. cbv iota.
  cbn [app].
  change (packageManager.removeConflictingDependencies "svelte")
    with (@Ok (list event) []).
  cbn [app].
  destruct (usePrettier answers);
    [ change (dependencyManager.getProjectDependencies "svelte" false true)
        with (Ok (dependencyManager.commonDependencies ++
                  ["eslint-plugin-svelte@latest"; "svelte-eslint-parser@latest";
                   "prettier-plugin-svelte@latest";
                   "eslint-config-prettier@latest"; "svelte-check@latest"]))
    | change (dependencyManager.getProjectDependencies "svelte" false false)
        with (Ok ["eslint@^8.56.0"; "eslint-plugin-svelte@latest";
                  "svelte-eslint-parser@latest"; "svelte-check@latest"]) ];
    (destruct (generateConfig _ _ _ _ _ _); [|reflexivity]);
    now destruct (useHusky answers).
Qed.

(** An instance: a svelte project whose components are under [src], and
    the answer yes to the TypeScript question. *)
Lemma svelte_without_detection_witness :
  effectiveTypeScript
    (mkOptions "svelte" true false false true)
    (mkEnvironment (Ok ["package.json"; "src"; "vite.config.js"]) None false
                   [] []) = false /\
  forallb (fun e => negb (writes_tsconfig e) && negb (installs_typescript e))
    (setupProject
       (mkOptions "svelte" true false false true)
       (mkEnvironment (Ok ["package.json"; "src"; "vite.config.js"]) None false
                      [] [])) = true.
Proof.
  apply svelte_without_detection; [reflexivity|].
  intros files file [= <-] Hin. simpl in Hin.
  repeat (destruct Hin as [<-|Hin]; [repeat split|]). contradiction.
Defined.

(** ** The scripts of [package.json] *)

Lemma or_default_truthy (x : option value) (d : value) :
  truthy d = true -> truthy (or_default x d) = true.
Proof.
  intros Hd. unfold or_default. destruct x as [v|]; auto.
  now destruct (truthy v) eqn:E.
Qed.

(** After the update [lint] and [lint:fix] are always there and truthy.
    [format] is the pre-existing command, or the plain default, whenever
    the formatter is used, also for svelte; the svelte command with its
    plugin is written only without the formatter; otherwise [format] is as
    it was. *)
Theorem updatedScripts_commands (projectType : string) (usePrettier : bool)
    (old : option value) :
  (exists v, get "lint" (updatedScripts projectType usePrettier old) = Some v /\
             truthy v = true) /\
  (exists v, get "lint:fix" (updatedScripts projectType usePrettier old) = Some v /\
             truthy v = true) /\
  get "format" (updatedScripts projectType usePrettier old)
  = if usePrettier
    then Some (or_default (member old "format") (VStr "prettier --write ."))
    else if String.eqb projectType "svelte"
         then Some (VStr "prettier --write --plugin prettier-plugin-svelte .")
         else get "format" (spread_object (or_default old (VObj []))).
Proof.
  unfold updatedScripts, assign.
  destruct (String.eqb projectType "svelte"), usePrettier;
    cbn [fold_left fst snd]; fields;
    repeat split; try reflexivity;
    eexists; (split; [reflexivity|]);
    first [ reflexivity | now apply or_default_truthy ].
Qed.

(** ** The first version *)

(** In the first version the strictness step is the only writer of the
    three rules: for each of the six types they are errors in strict mode
    and absent otherwise. *)
Theorem legacy_strict_rules (projectType rule : string)
    (useTypeScript useStrict : bool) :
  In projectType PROJECT_TYPES ->
  In rule ["no-console"; "no-debugger"; "no-unused-vars"] ->
  exists cfg,
    Legacy.eslintConfig projectType useTypeScript useStrict = Ok cfg /\
    rule_of cfg rule = if useStrict then Some (VStr "error") else None.
Proof.
  simpl. intros Hpt Hrule.
  repeat (destruct Hpt as [<-|Hpt];
          [ repeat (destruct Hrule as [<-|Hrule];
                    [ destruct useTypeScript, useStrict;
                      eexists; split; reflexivity |]);
            contradiction |]).
  contradiction.
Qed.

(** An instance: react, whose template has rules of its own. *)
Lemma legacy_strict_rules_witness :
  exists cfg,
    Legacy.eslintConfig "react" true false = Ok cfg /\
    rule_of cfg "no-debugger" = if false then Some (VStr "error") else None.
Proof.
  apply (legacy_strict_rules "react" "no-debugger" true false);
    simpl; tauto.
Defined.

(** In the first version the lint configuration does not depend on the
    formatter option: without the formatter no package with [prettier] in
    its specifier is installed, yet [extends] ends with
    [plugin:prettier/recommended] for every type. *)
Theorem legacy_extends_formatter (projectType : string)
    (useTypeScript useStrict : bool) :
  In projectType PROJECT_TYPES ->
  (exists deps,
      Legacy.dependencies projectType useTypeScript false = Ok deps /\
      existsb (fun dep => includes dep "prettier") deps = false) /\
  (exists cfg items,
      Legacy.eslintConfig projectType useTypeScript useStrict = Ok cfg /\
      get "extends" cfg = Some (VArr items) /\
      last items VNull = VStr "plugin:prettier/recommended").
Proof.
  simpl. intros Hpt.
  repeat (destruct Hpt as [<-|Hpt];
          [ split;
            [ destruct useTypeScript; eexists; split; reflexivity
            | destruct useTypeScript, useStrict;
              (eexists; eexists; split; [reflexivity|]; split; reflexivity) ] |]).
  contradiction.
Qed.

(** An instance: vue with TypeScript. *)
Lemma legacy_extends_formatter_witness :
  (exists deps,
      Legacy.dependencies "vue" true false = Ok deps /\
      existsb (fun dep => includes dep "prettier") deps = false) /\
  (exists cfg items,
      Legacy.eslintConfig "vue" true true = Ok cfg /\
      get "extends" cfg = Some (VArr items) /\
      last items VNull = VStr "plugin:prettier/recommended").
Proof.
  apply (legacy_extends_formatter "vue" true true). simpl. tauto.
Defined.

Lemma legacy_updates_fields (usePrettier useHusky : bool) :
  Legacy.packageJsonUpdates usePrettier useHusky
  = ("scripts",
     VObj ([("lint", VStr "eslint ."); ("lint:fix", VStr "eslint . --fix")]
           ++ if usePrettier then [("format", VStr "prettier --write .")]
              else []))
    :: (if useHusky
        then [("lint-staged",
               VObj [("*.{js,jsx,ts,tsx}", VArr [VStr "eslint --fix"]);
                     ("*.{json,md}", VArr [VStr "prettier --write"])])]
        else []).
Proof. now destruct usePrettier, useHusky. Qed.

(** The first version replaces the [scripts] of [package.json] as a whole:
    after its update the manifest has the wizard's scripts and no other,
    whatever scripts it had; the other top-level fields are carried
    through. *)
Theorem legacy_update_replaces_scripts (usePrettier useHusky : bool)
    (packageJson : props) :
  get "scripts"
      (Legacy.updatedPackageJson packageJson
         (Legacy.packageJsonUpdates usePrettier useHusky))
  = Some (VObj ([("lint", VStr "eslint ."); ("lint:fix", VStr "eslint . --fix")]
                ++ if usePrettier then [("format", VStr "prettier --write .")]
                   else [])) /\
  (forall key,
      key <> "scripts" -> key <> "lint-staged" ->
      get key (Legacy.updatedPackageJson packageJson
                 (Legacy.packageJsonUpdates usePrettier useHusky))
      = get key packageJson).
Proof.
  unfold Legacy.updatedPackageJson. rewrite legacy_updates_fields.
  unfold assign. split.
  - destruct useHusky; cbn [fold_left fst snd];
      rewrite ?(get_set_other "lint-staged" "scripts") by reflexivity;
      apply get_set_same.
  - intros key Hs Hl.
    apply String.eqb_neq in Hs, Hl. rewrite String.eqb_sym in Hs, Hl.
    destruct useHusky; cbn [fold_left fst snd];
      rewrite ?get_set_other by assumption; reflexivity.
Qed.
